(** * otgorm: OpenTracing callbacks for gorm

    A shallow embedding of the tracing callbacks ([before], [after]) and of
    the statement reconstruction ([setStatement]) of package [otgorm].

    Go strings are byte strings ([string], one [ascii] per byte).  The
    per-operation settings of a [gorm.Scope] ([scope.Get] / [scope.Set])
    are a finite map from setting names to dynamically typed values.  The
    tracer is an external collaborator: it is modelled by the chronological
    log of the calls made to it. *)

From Stdlib Require Import ZArith Ascii String DecimalString Lia.
From Stdlib Require DecimalFacts DecimalNat.
From stdpp Require Import gmap strings list.

(* String concatenation computes under [simpl]. *)
#[local] Arguments String.append !s1 s2 : simpl nomatch.

(** ** What the Go runtime provides

    [time.Time], [float64] and the Unicode case tables are used by the code
    only through [Time.String], the [%v] verb and [unicode.ToUpper]; they
    are kept abstract. *)

Class GoRuntime := {
  Time : Type;
  Time_String : Time -> string;
  Float64 : Type;
  FormatFloat64 : Float64 -> string;
  unicodeToUpper : string -> string
}.

(** ** Package [strings] *)

Module strings.

(** [strings.HasPrefix s prefix] *)
Fixpoint HasPrefix (s prefix : string) {struct prefix} : bool :=
  match prefix with
  | EmptyString => true
  | String p prefix' =>
      match s with
      | EmptyString => false
      | String c s' => Ascii.eqb c p && HasPrefix s' prefix'
      end
  end.

(** A [strings.Replacer] holds its old/new pairs in argument order.
    [NewReplacer(oldnew...)] takes a flat list and panics when its length
    is odd; a list of pairs is the flat list of even length. *)
Definition Replacer := list (string * string).

Definition NewReplacer (oldnew : list (string * string)) : Replacer := oldnew.

(** The replacer's lookup: among the old strings that are a prefix of [s],
    the one given first in argument order wins ("comparisons are done in
    argument order").  [ignoreRoot] leaves the empty old string out.  The
    result is the replacement and the length of the matched key. *)
Fixpoint lookup (r : Replacer) (s : string) (ignoreRoot : bool)
  : option (string * nat) :=
  match r with
  | [] => None
  | (old, new) :: r' =>
      if HasPrefix s old
         && negb (ignoreRoot && Nat.eqb (String.length old) 0)
      then Some (new, String.length old)
      else lookup r' s ignoreRoot
  end.

(** [Replacer.Replace]: one scan of [s] from left to right, without
    overlapping matches.  At a position where a key matches, the
    replacement is written and the scan resumes after the key; elsewhere
    the byte is copied.  [skip] counts the bytes of a matched key that are
    still to be passed over.  An empty key matches once at every position,
    before a non-empty key or the copied byte, and once at the end of the
    input.  The library has several algorithms (for one key, for keys of
    one byte, and the general one); this scan is what each computes. *)
Fixpoint replaceFrom (r : Replacer) (skip : nat) (s : string) : string :=
  match s with
  | EmptyString =>
      match lookup r EmptyString false with
      | Some (new, _) => new
      | None => EmptyString
      end
  | String c s' =>
      match skip with
      | S k => replaceFrom r k s'
      | O =>
          match lookup r s false with
          | Some (new, O) =>
              new +:+
              match lookup r s true with
              | Some (new2, keylen2) => new2 +:+ replaceFrom r (keylen2 - 1) s'
              | None => String c (replaceFrom r 0 s')
              end
          | Some (new, S k) => new +:+ replaceFrom r k s'
          | None => String c (replaceFrom r 0 s')
          end
      end
  end.

Definition Replace (r : Replacer) (s : string) : string := replaceFrom r 0 s.

(** [strings.Split(s, sep)] for a separator of one byte, which is how the
    package calls it (with [" "]).  [cur] is the piece being read. *)
Fixpoint splitFrom (cur : string) (s : string) (sep : ascii) : list string :=
  match s with
  | EmptyString => [cur]
  | String c s' =>
      if Ascii.eqb c sep then cur :: splitFrom EmptyString s' sep
      else splitFrom (cur +:+ String c EmptyString) s' sep
  end.

Definition Split (s : string) (sep : ascii) : list string :=
  splitFrom EmptyString s sep.

Definition isLower (c : ascii) : bool :=
  (97 <=? nat_of_ascii c)%nat && (nat_of_ascii c <=? 122)%nat.

Definition upperByte (c : ascii) : ascii :=
  if isLower c then ascii_of_nat (nat_of_ascii c - 32) else c.

Fixpoint isASCII (s : string) : bool :=
  match s with
  | EmptyString => true
  | String c s' => (nat_of_ascii c <? 128)%nat && isASCII s'
  end.

Fixpoint mapBytes (f : ascii -> ascii) (s : string) : string :=
  match s with
  | EmptyString => EmptyString
  | String c s' => String (f c) (mapBytes f s')
  end.

(** [strings.ToUpper]: byte-wise on ASCII-only input, the Unicode mapping
    otherwise. *)
Definition ToUpper `{GoRuntime} (s : string) : string :=
  if isASCII s then mapBytes upperByte s else unicodeToUpper s.

End strings.

(** ** Dynamically typed values: the elements of [scope.SQLVars] *)

Section Values.
Context `{GoRuntime}.

(** The dynamic types a bound argument can have: [nil], the plain
    scalars, byte slices, [time.Time], and the nullable wrappers of
    [database/sql] and [lib/pq] (the inner value, then [Valid]). *)
Inductive value :=
| VNil
| VString (s : string)
| VInt (n : Z)
| VBool (b : bool)
| VFloat64 (f : Float64)
| VBytes (bs : list Byte.byte)
| VTime (t : Time)
| VSqlNullTime (t : Time) (valid : bool)
| VSqlNullString (s : string) (valid : bool)
| VSqlNullInt64 (n : Z) (valid : bool)
| VSqlNullInt32 (n : Z) (valid : bool)
| VSqlNullBool (b : bool) (valid : bool)
| VSqlNullFloat64 (f : Float64) (valid : bool)
| VPqNullTime (t : Time) (valid : bool).

(** [reflect.Kind], the members these values and the switch need. *)
Inductive Kind :=
| Invalid | Bool | Int | Float64Kind | Interface | Slice | String_ | Struct.

(** [reflect.ValueOf(val).Kind()].  [ValueOf] unpacks the interface it is
    given: the kind is that of the concrete value ([time.Time] and the
    nullable wrappers are structs), and [Invalid] for [nil]. *)
Definition KindOf (val : value) : Kind :=
  match val with
  | VNil => Invalid
  | VString _ => String_
  | VInt _ => Int
  | VBool _ => Bool
  | VFloat64 _ => Float64Kind
  | VBytes _ => Slice
  | VTime _
  | VSqlNullTime _ _ | VSqlNullString _ _ | VSqlNullInt64 _ _
  | VSqlNullInt32 _ _ | VSqlNullBool _ _ | VSqlNullFloat64 _ _
  | VPqNullTime _ _ => Struct
  end.

(** *** Package [fmt] *)

Definition formatInt (n : Z) : string := NilZero.string_of_int (Z.to_int n).

(** [%d] of the loop counter, which is never negative *)
Definition formatNat (i : nat) : string := NilEmpty.string_of_uint (Nat.to_uint i).

Definition formatBool (b : bool) : string := if b then "true" else "false".

Fixpoint joinBytes (bs : list Byte.byte) : string :=
  match bs with
  | [] => ""
  | [b] => formatNat (Byte.to_nat b)
  | b :: bs' => formatNat (Byte.to_nat b) +:+ " " +:+ joinBytes bs'
  end.

(** A struct of two fields under [%v]: [{field1 field2}]. *)
Definition formatStruct2 (f1 f2 : string) : string :=
  "{" +:+ f1 +:+ " " +:+ f2 +:+ "}".

(** The [%v] verb.  [time.Time] is a [Stringer], also as a struct field;
    the nullable wrappers have no [String] method and print as structs. *)
Definition formatV (val : value) : string :=
  match val with
  | VNil => "<nil>"
  | VString s => s
  | VInt n => formatInt n
  | VBool b => formatBool b
  | VFloat64 f => FormatFloat64 f
  | VBytes bs => "[" +:+ joinBytes bs +:+ "]"
  | VTime t => Time_String t
  | VSqlNullTime t valid => formatStruct2 (Time_String t) (formatBool valid)
  | VSqlNullString s valid => formatStruct2 s (formatBool valid)
  | VSqlNullInt64 n valid => formatStruct2 (formatInt n) (formatBool valid)
  | VSqlNullInt32 n valid => formatStruct2 (formatInt n) (formatBool valid)
  | VSqlNullBool b valid => formatStruct2 (formatBool b) (formatBool valid)
  | VSqlNullFloat64 f valid => formatStruct2 (FormatFloat64 f) (formatBool valid)
  | VPqNullTime t valid => formatStruct2 (Time_String t) (formatBool valid)
  end.

(** The [%s] verb, which the package applies to values of kind [String]
    only; there it agrees with [%v]. *)
Definition formatS (val : value) : string := formatV val.

Definition quote (s : string) : string := "'" +:+ s +:+ "'".

(** *** [setStatement] *)

(** The type switch under [case reflect.Interface]: [sqlValue] starts as
    ["NULL"] and is overwritten by the case of the dynamic type. *)
Definition interfaceCase (val : value) : string :=
  match val with
  | VTime t => quote (Time_String t)
  | VSqlNullTime t valid => if valid then quote (Time_String t) else "NULL"
  | VSqlNullString s valid => if valid then quote s else "NULL"
  | VSqlNullInt64 n valid => if valid then formatInt n else "NULL"
  | VSqlNullInt32 n valid => if valid then formatInt n else "NULL"
  | VSqlNullBool b valid => if valid then formatBool b else "NULL"
  | VSqlNullFloat64 f valid => if valid then FormatFloat64 f else "NULL"
  | VPqNullTime t valid => if valid then quote (Time_String t) else "NULL"
  | _ => "NULL"
  end.

(** The body of the loop: the text [sqlValue] computed for one argument,
    by the switch on its reflected kind. *)
Definition sqlValue (val : value) : string :=
  match KindOf val with
  | String_ => quote (formatS val)
  | Interface => interfaceCase val
  | _ => formatV val
  end.

(** [fmt.Sprintf("$%d", i)] *)
Definition placeholder (i : nat) : string := "$" +:+ formatNat i.

(** The loop [for i := 1; i <= len(scope.SQLVars); i++], from counter [i]
    on, over the arguments that remain; each round appends the pair
    [$i], [sqlValue]. *)
Fixpoint replacerFrom (i : nat) (vars : list value) : list (string * string) :=
  match vars with
  | [] => []
  | val :: vars' => (placeholder i, sqlValue val) :: replacerFrom (S i) vars'
  end.

Definition replacer (vars : list value) : list (string * string) :=
  replacerFrom 1 vars.

(** [setStatement], as a function of the two fields of the scope it
    reads: [scope.SQL] and [scope.SQLVars]. *)
Definition setStatement (SQL : string) (SQLVars : list value) : string :=
  strings.Replace (strings.NewReplacer (replacer SQLVars)) SQL.

End Values.

(** ** The tracer and the scope *)

(** A span is identified by the number the tracer gave it. *)
Definition Span := nat.

(** The values a tag is set to. *)
Inductive tagValue :=
| TagString (s : string)
| TagBool (b : bool)
| TagInt (n : Z)
| TagError (msg : string).

(** The calls the package makes to the tracing API. *)
Inductive call :=
| CallStartSpan (name : string) (childOf : Span) (sp : Span)
| CallSetTag (sp : Span) (key : string) (v : tagValue)
| CallFinish (sp : Span).

Record Tracer := { nextSpan : Span; calls : list call }.

(** Computations that call the tracer and may panic ([None]). *)
Definition M (A : Type) : Type := Tracer -> option (A * Tracer).

Definition ret {A} (a : A) : M A := fun tr => Some (a, tr).

Definition bind {A B} (m : M A) (k : A -> M B) : M B :=
  fun tr => match m tr with
            | Some (a, tr') => k a tr'
            | None => None
            end.

Definition panic {A} : M A := fun _ => None.

Notation "x <- m ;; k" := (bind m (fun x => k))
  (at level 100, m at next level, right associativity).
Notation "m ;;; k" := (bind m (fun _ => k))
  (at level 100, right associativity).

Definition record (c : call) : M unit :=
  fun tr => Some (tt, {| nextSpan := nextSpan tr; calls := calls tr ++ [c] |}).

(** [tr.StartSpan(name, opentracing.ChildOf(parent.Context()))] *)
Definition StartSpan (name : string) (parent : Span) : M Span :=
  fun tr => Some (nextSpan tr,
                  {| nextSpan := S (nextSpan tr);
                     calls := calls tr ++ [CallStartSpan name parent (nextSpan tr)] |}).

Definition SetTag (sp : Span) (key : string) (v : tagValue) : M unit :=
  record (CallSetTag sp key v).

Definition Finish (sp : Span) : M unit := record (CallFinish sp).

(** What a scope setting holds: a span, or a value of another type. *)
Inductive setting :=
| SettingSpan (sp : Span)
| SettingOther (v : string).

(** The type assertion [val.(opentracing.Span)], which panics on a value of
    another type. *)
Definition assertSpan (val : setting) : M Span :=
  match val with
  | SettingSpan sp => ret sp
  | SettingOther _ => panic
  end.

Definition parentSpanGormKey : string := "opentracingParentSpan".
Definition spanGormKey : string := "opentracingSpan".

Section Callbacks.
Context `{GoRuntime}.

(** The part of a [gorm.Scope] the callbacks read and write. *)
Record Scope := {
  settings : gmap string setting;
  SQL : string;
  SQLVars : list value;
  TableName : string;
  InstanceID : string;
  DialectName : string;
  RowsAffected : Z;
  Error : option string
}.

(** [scope.Get(name)] *)
Definition scope_Get (scope : Scope) (name : string) : option setting :=
  settings scope !! name.

(** [scope.Set(name, value)] *)
Definition scope_Set (scope : Scope) (name : string) (val : setting) : Scope :=
  {| settings := <[name := val]> (settings scope);
     SQL := SQL scope; SQLVars := SQLVars scope;
     TableName := TableName scope; InstanceID := InstanceID scope;
     DialectName := DialectName scope; RowsAffected := RowsAffected scope;
     Error := Error scope |}.

(** [scope.HasError()] *)
Definition HasError (scope : Scope) : bool :=
  match Error scope with Some _ => true | None => false end.

(** The index expression [l[0]], which panics on an empty slice. *)
Definition index0 (l : list string) : M string :=
  match l with
  | [] => panic
  | x :: _ => ret x
  end.

Definition before (scope : Scope) : M Scope :=
  match scope_Get scope parentSpanGormKey with
  | None => ret scope
  | Some val =>
      parentSpan <- assertSpan val ;;
      sp <- StartSpan "sql" parentSpan ;;
      SetTag sp "db.type" (TagString (DialectName scope)) ;;;
      SetTag sp "db.instance" (TagString (InstanceID scope)) ;;;
      ret (scope_Set scope spanGormKey (SettingSpan sp))
  end.

Definition after (scope : Scope) (operation : string) : M Scope :=
  match scope_Get scope spanGormKey with
  | None => ret scope
  | Some val =>
      sp <- assertSpan val ;;
      operation <- (if String.eqb operation ""
                    then first <- index0 (strings.Split (SQL scope) " ") ;;
                         ret (strings.ToUpper first)
                    else ret operation) ;;
      SetTag sp "error" (TagBool (HasError scope)) ;;;
      SetTag sp "db.table" (TagString (TableName scope)) ;;;
      SetTag sp "db.method" (TagString operation) ;;;
      SetTag sp "db.count" (TagInt (RowsAffected scope)) ;;;
      match Error scope with
      | Some msg => SetTag sp "db.err" (TagError msg)
      | None => ret tt
      end ;;;
      SetTag sp "db.statement"
        (TagString (setStatement (SQL scope) (SQLVars scope))) ;;;
      Finish sp ;;;
      ret scope
  end.

Definition afterCreate (scope : Scope) : M Scope := after scope "INSERT".
Definition afterQuery (scope : Scope) : M Scope := after scope "SELECT".
Definition afterUpdate (scope : Scope) : M Scope := after scope "UPDATE".
Definition afterDelete (scope : Scope) : M Scope := after scope "DELETE".
Definition afterRowQuery (scope : Scope) : M Scope := after scope "".

End Callbacks.

(** ** Observations on the log of tracer calls *)

Definition isStartSpan (c : call) : bool :=
  match c with CallStartSpan _ _ _ => true | _ => false end.

Definition isFinish (c : call) : bool :=
  match c with CallFinish _ => true | _ => false end.

Definition isFinishOf (sp : Span) (c : call) : bool :=
  match c with CallFinish sp' => Nat.eqb sp sp' | _ => false end.

Definition count (p : call -> bool) (l : list call) : nat :=
  length (List.filter p l).

(** The value a tag of a span was last set to. *)
Fixpoint tagOf (sp : Span) (key : string) (l : list call) : option tagValue :=
  match l with
  | [] => None
  | c :: l' =>
      match tagOf sp key l' with
      | Some v => Some v
      | None =>
          match c with
          | CallSetTag sp' key' v =>
              if Nat.eqb sp sp' && String.eqb key key' then Some v else None
          | _ => None
          end
      end
  end.

(** A runtime to evaluate the definitions on: a time and a float are given
    by their printed forms. *)
Definition demoRuntime : GoRuntime := {|
  Time := string; Time_String := fun t => t;
  Float64 := string; FormatFloat64 := fun f => f;
  unicodeToUpper := fun s => s |}.

(** ** Definitions the properties are stated with *)

(** A key of the replacer that [setStatement] builds is [$] followed by
    bytes other than [$]. *)
Fixpoint noDollar (s : string) : bool :=
  match s with
  | EmptyString => true
  | String c s' => negb (Ascii.eqb c "$") && noDollar s'
  end.

Definition isDollarKey (old : string) : bool :=
  match old with
  | EmptyString => false
  | String c d => Ascii.eqb c "$" && noDollar d
  end.

Section Substitution.
Context `{GoRuntime}.

(** Simultaneous substitution, in the words of the description: the
    output is read off the template in one pass, a placeholder [$i] with
    [1 <= i <= len(args)] giving the text computed for argument [i] and
    every other byte giving itself.  The text put in is never read. *)
Inductive Substituted (args : list value) : string -> string -> Prop :=
| Sub_end : Substituted args "" ""
| Sub_placeholder i val rest out :
    args !! i = Some val ->
    Substituted args rest out ->
    Substituted args (placeholder (S i) +:+ rest) (sqlValue val +:+ out)
| Sub_copy c rest out :
    (forall i, i < length args ->
               strings.HasPrefix (String c rest) (placeholder (S i)) = false) ->
    Substituted args rest out ->
    Substituted args (String c rest) (String c out).

(** Sequential substitution, for contrast: the pairs are applied one
    after the other, each to the output of the one before. *)
Definition sequential (SQL : string) (args : list value) : string :=
  fold_left (fun acc p => strings.Replace [p] acc) (replacer args) SQL.

(** The loop body of the version of [after] that builds the statement
    itself ([otgorm.go]): under [case reflect.Interface] only
    [time.Time] is looked for, and [sqlValue] starts empty. *)
Definition sqlValueInline (val : value) : string :=
  match KindOf val with
  | String_ => quote (formatS val)
  | Interface => match val with VTime _ => quote (formatV val) | _ => "" end
  | _ => formatV val
  end.

End Substitution.

(** The first whitespace-delimited token of a string, as [strings.Fields]
    delimits tokens: leading white space is passed over and the token ends
    at the next white space byte. *)
Definition isSpace (c : ascii) : bool :=
  match nat_of_ascii c with
  | 9 | 10 | 11 | 12 | 13 | 32 => true
  | _ => false
  end.

Fixpoint takeToken (s : string) : string :=
  match s with
  | EmptyString => EmptyString
  | String c s' => if isSpace c then EmptyString else String c (takeToken s')
  end.

Fixpoint firstToken (s : string) : string :=
  match s with
  | EmptyString => EmptyString
  | String c s' => if isSpace c then firstToken s' else String c (takeToken s')
  end.

(** The bytes of a string before its first space (all of it if it has
    none). *)
Fixpoint beforeSpace (s : string) : string :=
  match s with
  | EmptyString => EmptyString
  | String c s' => if Ascii.eqb c " " then EmptyString else String c (beforeSpace s')
  end.

(** The keys of a replacer are all of the form [$...]. *)
Definition dollarKeys (r : strings.Replacer) : Prop :=
  Forall (fun p => isDollarKey (fst p) = true) r.

(** *** The span lifecycle *)

Section LifecycleDefs.
Context `{GoRuntime}.

(** The verb that [after] tags the span with. *)
Definition method (scope : Scope) (operation : string) : string :=
  if String.eqb operation ""
  then strings.ToUpper (beforeSpace (SQL scope))
  else operation.

(** The tracer calls of one run of [before] whose parent span is
    [parent] and whose new span is [sp]. *)
Definition beforeCalls (scope : Scope) (parent sp : Span) : list call :=
  [ CallStartSpan "sql" parent sp;
    CallSetTag sp "db.type" (TagString (DialectName scope));
    CallSetTag sp "db.instance" (TagString (InstanceID scope)) ].

(** The tracer calls of one run of [after] that finds span [sp]. *)
Definition afterCalls (scope : Scope) (sp : Span) (operation : string)
  : list call :=
  [ CallSetTag sp "error" (TagBool (HasError scope));
    CallSetTag sp "db.table" (TagString (TableName scope));
    CallSetTag sp "db.method" (TagString (method scope operation));
    CallSetTag sp "db.count" (TagInt (RowsAffected scope)) ]
  ++ match Error scope with
     | Some msg => [ CallSetTag sp "db.err" (TagError msg) ]
     | None => []
     end
  ++ [ CallSetTag sp "db.statement"
         (TagString (setStatement (SQL scope) (SQLVars scope)));
       CallFinish sp ].

(** The log of a tracer after more calls. *)
Definition logged (tr : Tracer) (next : Span) (l : list call) : Tracer :=
  {| nextSpan := next; calls := calls tr ++ l |}.


(** The scope after the host has run the operation between the two
    callbacks: the statement, its arguments, the row count and the error
    are the operation's; the settings are kept. *)
Definition executed (scope : Scope) (sql : string) (vars : list value)
           (rows : Z) (err : option string) : Scope :=
  {| settings := settings scope;
     SQL := sql; SQLVars := vars;
     TableName := TableName scope; InstanceID := InstanceID scope;
     DialectName := DialectName scope; RowsAffected := rows;
     Error := err |}.

End LifecycleDefs.

(** *** Inputs to evaluate the definitions on *)

(** A scope with a parent span attached, and the tracer it runs against. *)
Definition demoScope : @Scope demoRuntime := {|
  settings := {[ parentSpanGormKey := SettingSpan 0 ]};
  SQL := "select id from t where id = $1"; SQLVars := [VInt 5];
  TableName := "t"; InstanceID := "db0"; DialectName := "postgres";
  RowsAffected := 1; Error := Some "boom" |}.

Definition demoTracer : Tracer := {| nextSpan := 1; calls := [] |}.

(** A scope with no span attached. *)
Definition untracedScope : @Scope demoRuntime := {|
  settings := ∅;
  SQL := "select id from t"; SQLVars := [];
  TableName := "t"; InstanceID := "db0"; DialectName := "postgres";
  RowsAffected := 0; Error := None |}.

(** Scopes of raw row queries holding span 1, with a given statement. *)
Definition rawScope (sql : string) : @Scope demoRuntime := {|
  settings := {[ spanGormKey := SettingSpan 1 ]};
  SQL := sql; SQLVars := [];
  TableName := ""; InstanceID := "db0"; DialectName := "postgres";
  RowsAffected := 0; Error := None |}.

Definition tenArgs : list (@value demoRuntime) :=
  [VString "a"; VInt 2; VInt 3; VInt 4; VInt 5; VInt 6; VInt 7; VInt 8; VInt 9;
   VString "j"].

(** The number of [Finish] calls in the log a run leaves. *)
Definition finishCalls `{GoRuntime} (run : M Scope) (tr : Tracer) : option nat :=
  (fun r => count isFinish (calls (snd r))) <$> run tr.

(** The [db.method] tag of span [sp] in the log a run leaves. *)
Definition methodTag `{GoRuntime} (sp : Span) (run : M Scope) (tr : Tracer)
  : option (option tagValue) :=
  (fun r => tagOf sp "db.method" (calls (snd r))) <$> run tr.

(** ** The rest of the package *)

(** A [context.Context], as far as [opentracing.SpanFromContext] reads it:
    the span it carries, if any. *)
Record context_Context := { SpanFromContext : option Span }.

(** [db.Set(name, value)] of a [gorm.DB], seen as its settings: a clone of
    the handle with the setting added. *)
Definition DB_Set (db : gmap string setting) (name : string) (val : setting)
  : gmap string setting :=
  <[name := val]> db.

(** [SetSpanToGorm]; a [nil] context is [None]. *)
Definition SetSpanToGorm (ctx : option context_Context)
           (db : gmap string setting) : gmap string setting :=
  match ctx with
  | None => db
  | Some ctx =>
      match SpanFromContext ctx with
      | None => db
      | Some parentSpan => DB_Set db parentSpanGormKey (SettingSpan parentSpan)
      end
  end.

(** The digit [1] to [9] that a byte writes. *)
Definition digitOf (c : ascii) : option nat :=
  match nat_of_ascii c with
  | 49 => Some 1 | 50 => Some 2 | 51 => Some 3
  | 52 => Some 4 | 53 => Some 5 | 54 => Some 6
  | 55 => Some 7 | 56 => Some 8 | 57 => Some 9
  | _ => None
  end.

Section Package.
Context `{GoRuntime}.

Definition beforeCreate (scope : Scope) : M Scope := before scope.
Definition beforeQuery (scope : Scope) : M Scope := before scope.
Definition beforeUpdate (scope : Scope) : M Scope := before scope.
Definition beforeDelete (scope : Scope) : M Scope := before scope.
Definition beforeRowQuery (scope : Scope) : M Scope := before scope.

(** A callback as gorm holds it once registered: its name, the callback
    it is to run before or after, the kind of operation, the function. *)
Record CallbackProcessor := {
  cp_name : string;
  cp_before : string;
  cp_after : string;
  cp_kind : string;
  cp_processor : Scope -> M Scope
}.

(** [db.Callback().<Kind>().Before(anchor).Register(name, fn)] and the
    same with [After], on the list of the callbacks registered so far. *)
Definition RegisterBefore (cbs : list CallbackProcessor) (kind anchor name : string)
           (fn : Scope -> M Scope) : list CallbackProcessor :=
  cbs ++ [ {| cp_name := name; cp_before := anchor; cp_after := "";
              cp_kind := kind; cp_processor := fn |} ].

Definition RegisterAfter (cbs : list CallbackProcessor) (kind anchor name : string)
           (fn : Scope -> M Scope) : list CallbackProcessor :=
  cbs ++ [ {| cp_name := name; cp_before := ""; cp_after := anchor;
              cp_kind := kind; cp_processor := fn |} ].

Definition registerCallbacks (cbs : list CallbackProcessor) (name : string)
  : list CallbackProcessor :=
  let beforeName := "tracing:" +:+ name +:+ "_before" in
  let afterName := "tracing:" +:+ name +:+ "_after" in
  let gormCallbackName := "gorm:" +:+ name in
  if String.eqb name "create" then
    RegisterAfter (RegisterBefore cbs "create" gormCallbackName beforeName beforeCreate)
      "create" gormCallbackName afterName afterCreate
  else if String.eqb name "query" then
    RegisterAfter (RegisterBefore cbs "query" gormCallbackName beforeName beforeQuery)
      "query" gormCallbackName afterName afterQuery
  else if String.eqb name "update" then
    RegisterAfter (RegisterBefore cbs "update" gormCallbackName beforeName beforeUpdate)
      "update" gormCallbackName afterName afterUpdate
  else if String.eqb name "delete" then
    RegisterAfter (RegisterBefore cbs "delete" gormCallbackName beforeName beforeDelete)
      "delete" gormCallbackName afterName afterDelete
  else if String.eqb name "row_query" then
    RegisterAfter (RegisterBefore cbs "row_query" gormCallbackName beforeName beforeRowQuery)
      "row_query" gormCallbackName afterName afterRowQuery
  else cbs.

Definition AddGormCallbacks (cbs : list CallbackProcessor) : list CallbackProcessor :=
  let cbs := registerCallbacks cbs "create" in
  let cbs := registerCallbacks cbs "query" in
  let cbs := registerCallbacks cbs "update" in
  let cbs := registerCallbacks cbs "delete" in
  registerCallbacks cbs "row_query".

(** The callbacks of a kind that are to run before, or after, the
    callback named [anchor]. *)
Definition runsBefore (kind anchor : string) (cp : CallbackProcessor) : bool :=
  String.eqb (cp_kind cp) kind && String.eqb (cp_before cp) anchor.

Definition runsAfter (kind anchor : string) (cp : CallbackProcessor) : bool :=
  String.eqb (cp_kind cp) kind && String.eqb (cp_after cp) anchor.

(** The verb each kind of operation is traced with; none for a raw row
    query. *)
Definition verbOf (kind : string) : string :=
  if String.eqb kind "create" then "INSERT"
  else if String.eqb kind "query" then "SELECT"
  else if String.eqb kind "update" then "UPDATE"
  else if String.eqb kind "delete" then "DELETE"
  else "".

(** The loop of [after] in [otgorm.go], which builds the replacer itself. *)
Fixpoint replacerInlineFrom (i : nat) (vars : list value)
  : list (string * string) :=
  match vars with
  | [] => []
  | val :: vars' =>
      (placeholder i, sqlValueInline val) :: replacerInlineFrom (S i) vars'
  end.

(** [after] as [otgorm.go] has it. *)
Definition afterInline (scope : Scope) (operation : string) : M Scope :=
  match scope_Get scope spanGormKey with
  | None => ret scope
  | Some val =>
      sp <- assertSpan val ;;
      operation <- (if String.eqb operation ""
                    then first <- index0 (strings.Split (SQL scope) " ") ;;
                         ret (strings.ToUpper first)
                    else ret operation) ;;
      SetTag sp "error" (TagBool (HasError scope)) ;;;
      SetTag sp "db.table" (TagString (TableName scope)) ;;;
      SetTag sp "db.method" (TagString operation) ;;;
      SetTag sp "db.count" (TagInt (RowsAffected scope)) ;;;
      match Error scope with
      | Some msg => SetTag sp "db.err" (TagError msg)
      | None => ret tt
      end ;;;
      let r := strings.NewReplacer (replacerInlineFrom 1 (SQLVars scope)) in
      let statement := strings.Replace r (SQL scope) in
      SetTag sp "db.statement" (TagString statement) ;;;
      Finish sp ;;;
      ret scope
  end.

(** Substitution that reads one digit after a [$]: [$d] with [d] from [1]
    to [9] and at most the number of arguments gives the text of argument
    [d]; every other byte is copied. *)
Fixpoint oneDigit (args : list value) (s : string) : string :=
  match s with
  | EmptyString => EmptyString
  | String c s' =>
      if Ascii.eqb c "$" then
        match s' with
        | String d rest =>
            match digitOf d with
            | Some j =>
                match args !! (j - 1) with
                | Some val => sqlValue val +:+ oneDigit args rest
                | None => String c (oneDigit args s')
                end
            | None => String c (oneDigit args s')
            end
        | EmptyString => String c (oneDigit args s')
        end
      else String c (oneDigit args s')
  end.

End Package.

(** ** Strings *)

Lemma append_assoc (a b c : string) : (a +:+ b) +:+ c = a +:+ (b +:+ c).
Proof. induction a as [|x a IH]; simpl; [reflexivity | now rewrite IH]. Qed.

Lemma append_nil_r (a : string) : a +:+ "" = a.
Proof. induction a as [|x a IH]; simpl; [reflexivity | now rewrite IH]. Qed.

Lemma length_append (a b : string) :
  String.length (a +:+ b) = String.length a + String.length b.
Proof. induction a as [|x a IH]; simpl; [reflexivity | now rewrite IH]. Qed.

Lemma HasPrefix_append (old rest : string) :
  strings.HasPrefix (old +:+ rest) old = true.
Proof.
  induction old as [|p old IH]; simpl; [reflexivity|].
  now rewrite Ascii.eqb_refl, IH.
Qed.

Lemma HasPrefix_split (s old : string) :
  strings.HasPrefix s old = true -> exists rest, s = old +:+ rest.
Proof.
  revert s. induction old as [|p old IH]; intros s Hp; simpl in *.
  - now exists s.
  - destruct s as [|c s]; [discriminate|].
    apply andb_true_iff in Hp as [Hc Hs].
    apply Ascii.eqb_eq in Hc as ->.
    destruct (IH _ Hs) as [rest ->]. now exists rest.
Qed.

Lemma HasPrefix_length (s old : string) :
  strings.HasPrefix s old = true -> String.length old <= String.length s.
Proof.
  intros Hp. destruct (HasPrefix_split _ _ Hp) as [rest ->].
  rewrite length_append. lia.
Qed.

(** A text without [$] is a prefix of [x] followed by [$...] exactly when
    it is a prefix of [x]. *)
Lemma HasPrefix_noDollar (d x rest : string) :
  noDollar d = true ->
  strings.HasPrefix (x +:+ String "$" rest) d = strings.HasPrefix x d.
Proof.
  revert x. induction d as [|e d IH]; intros x Hd; simpl in *.
  - reflexivity.
  - apply andb_true_iff in Hd as [He Hd].
    destruct x as [|c x]; cbn [strings.HasPrefix String.append].
    + apply negb_true_iff in He. rewrite Ascii.eqb_sym in He. now rewrite He.
    + now rewrite IH.
Qed.

Lemma HasPrefix_dollarKey (old : string) (c : ascii) (x rest : string) :
  isDollarKey old = true ->
  strings.HasPrefix (String c x +:+ String "$" rest) old
  = strings.HasPrefix (String c x) old.
Proof.
  destruct old as [|p d]; simpl; [discriminate|].
  intros Hk. apply andb_true_iff in Hk as [_ Hd].
  now rewrite HasPrefix_noDollar.
Qed.

Lemma HasPrefix_other_byte (old : string) (c : ascii) (s : string) :
  isDollarKey old = true -> c <> "$"%char ->
  strings.HasPrefix (String c s) old = false.
Proof.
  destruct old as [|p d]; simpl; [discriminate|].
  intros Hk Hc. apply andb_true_iff in Hk as [Hp _].
  apply Ascii.eqb_eq in Hp as ->.
  apply Ascii.eqb_neq in Hc. now rewrite Hc.
Qed.

(** ** The replacer on keys of the form [$...] *)


Lemma lookup_Some (r : strings.Replacer) s b new k :
  strings.lookup r s b = Some (new, k) ->
  exists old, In (old, new) r /\ strings.HasPrefix s old = true
              /\ k = String.length old.
Proof.
  induction r as [|[old' new'] r IH]; simpl; [discriminate|].
  destruct (strings.HasPrefix s old') eqn:Hp; simpl.
  - destruct (negb _); [|intros Hl; destruct (IH Hl) as (old & ? & ? & ?); eauto].
    intros [= <- <-]. exists old'. auto.
  - intros Hl. destruct (IH Hl) as (old & ? & ? & ?). eauto.
Qed.

Lemma lookup_None (r : strings.Replacer) s old new :
  strings.lookup r s false = None -> In (old, new) r ->
  strings.HasPrefix s old = false.
Proof.
  induction r as [|[old' new'] r IH]; simpl; [tauto|].
  destruct (strings.HasPrefix s old') eqn:Hp; simpl; [discriminate|].
  intros Hl [[= <- <-]|Hin]; auto.
Qed.

Lemma dollarKeys_In (r : strings.Replacer) old new :
  dollarKeys r -> In (old, new) r -> isDollarKey old = true.
Proof.
  intros Hr Hin. unfold dollarKeys in Hr. rewrite List.Forall_forall in Hr.
  exact (Hr _ Hin).
Qed.

Lemma lookup_keylen (r : strings.Replacer) s b new k :
  dollarKeys r -> strings.lookup r s b = Some (new, k) ->
  1 <= k <= String.length s.
Proof.
  intros Hr Hl. destruct (lookup_Some _ _ _ _ _ Hl) as (old & Hin & Hp & ->).
  split; [|now apply HasPrefix_length].
  pose proof (dollarKeys_In _ _ _ Hr Hin) as Hk.
  destruct old; [discriminate | simpl; lia].
Qed.

Lemma lookup_app_dollar (r : strings.Replacer) c x rest b :
  dollarKeys r ->
  strings.lookup r (String c x +:+ String "$" rest) b
  = strings.lookup r (String c x) b.
Proof.
  induction 1 as [|[old new] r Hk _ IH]; [reflexivity|].
  cbn [strings.lookup]. simpl fst in Hk.
  now rewrite HasPrefix_dollarKey, IH.
Qed.

Lemma lookup_other_byte (r : strings.Replacer) c s b :
  dollarKeys r -> c <> "$"%char -> strings.lookup r (String c s) b = None.
Proof.
  intros Hr Hc. induction Hr as [|[old new] r Hk _ IH]; [reflexivity|].
  cbn [strings.lookup]. simpl fst in Hk.
  now rewrite HasPrefix_other_byte.
Qed.

Lemma lookup_end (r : strings.Replacer) b :
  dollarKeys r -> strings.lookup r "" b = None.
Proof.
  induction 1 as [|[old new] r Hk _ IH]; [reflexivity|].
  cbn [strings.lookup]. simpl fst in Hk.
  destruct old; [discriminate | exact IH].
Qed.

Lemma replaceFrom_skip (r : strings.Replacer) (x rest : string) :
  strings.replaceFrom r (String.length x) (x +:+ rest)
  = strings.replaceFrom r 0 rest.
Proof. induction x as [|c x IH]; simpl; [reflexivity | exact IH]. Qed.

(** A match that starts before a [$] ends before it: the scan of
    [pre ++ "$" ++ rest] is the scan of [pre] followed by the scan of
    ["$" ++ rest]. *)
Lemma replaceFrom_app_dollar (r : strings.Replacer) (rest : string) :
  dollarKeys r ->
  forall pre skip, skip <= String.length pre ->
    strings.replaceFrom r skip (pre +:+ String "$" rest)
    = strings.replaceFrom r skip pre +:+ strings.replaceFrom r 0 (String "$" rest).
Proof.
  intros Hr. induction pre as [|c pre IH]; intros skip Hs.
  - assert (skip = 0) as -> by (simpl in Hs; lia).
    cbn [String.append].
    change (strings.replaceFrom r 0 "")
      with (match strings.lookup r "" false with
            | Some (new, _) => new
            | None => ""
            end).
    now rewrite lookup_end.
  - destruct skip as [|k].
    + change (String c pre +:+ String "$" rest)
        with (String c (pre +:+ String "$" rest)).
      cbn [strings.replaceFrom].
      change (String c (pre +:+ String "$" rest))
        with (String c pre +:+ String "$" rest).
      rewrite lookup_app_dollar by assumption.
      destruct (strings.lookup r (String c pre) false) as [[new k]|] eqn:Hl.
      * pose proof (lookup_keylen _ _ _ _ _ Hr Hl) as [Hk1 Hk2].
        destruct k as [|k]; [lia|]. simpl in Hk2.
        rewrite IH by lia. now rewrite append_assoc.
      * rewrite IH by lia. reflexivity.
    + simpl in Hs. cbn [String.append strings.replaceFrom].
      apply IH. lia.
Qed.

Lemma Replace_app_dollar (r : strings.Replacer) (pre rest : string) :
  dollarKeys r ->
  strings.Replace r (pre +:+ String "$" rest)
  = strings.Replace r pre +:+ strings.Replace r (String "$" rest).
Proof. intros Hr. apply replaceFrom_app_dollar; [assumption | lia]. Qed.

Lemma Replace_other_byte (r : strings.Replacer) (c : ascii) (s : string) :
  dollarKeys r -> c <> "$"%char ->
  strings.Replace r (String c s) = String c (strings.Replace r s).
Proof.
  intros Hr Hc. unfold strings.Replace. cbn [strings.replaceFrom].
  now rewrite lookup_other_byte.
Qed.

Lemma Replace_hit (r : strings.Replacer) (old new rest : string) :
  dollarKeys r ->
  strings.lookup r (old +:+ rest) false = Some (new, String.length old) ->
  strings.Replace r (old +:+ rest) = new +:+ strings.Replace r rest.
Proof.
  intros Hr Hl. pose proof (lookup_keylen _ _ _ _ _ Hr Hl) as [Hk _].
  destruct old as [|c old]; [simpl in Hk; lia|].
  unfold strings.Replace.
  change (String c old +:+ rest) with (String c (old +:+ rest)) in *.
  cbn [strings.replaceFrom]. rewrite Hl. cbn [String.length].
  now rewrite replaceFrom_skip.
Qed.

(** ** The replacer that [setStatement] builds *)

Lemma noDollar_string_of_uint (d : Decimal.uint) :
  noDollar (NilEmpty.string_of_uint d) = true.
Proof. induction d; simpl; auto. Qed.

Section ReplacerFacts.
Context `{GoRuntime}.

Lemma placeholder_dollarKey (i : nat) : isDollarKey (placeholder i) = true.
Proof.
  unfold placeholder, formatNat. cbn [String.append isDollarKey].
  rewrite Ascii.eqb_refl. apply noDollar_string_of_uint.
Qed.

Lemma replacerFrom_dollarKeys (i : nat) (vars : list value) :
  dollarKeys (replacerFrom i vars).
Proof.
  revert i. induction vars as [|val vars IH]; intros i; simpl.
  - constructor.
  - constructor; [apply placeholder_dollarKey | apply IH].
Qed.

Lemma replacer_dollarKeys (vars : list value) : dollarKeys (replacer vars).
Proof. apply replacerFrom_dollarKeys. Qed.

(** Round [k] of the loop pairs [$(i+k)] with the text of argument [k]. *)
Lemma replacerFrom_lookup (i : nat) (vars : list value) (k : nat) :
  replacerFrom i vars !! k
  = (fun val => (placeholder (i + k), sqlValue val)) <$> (vars !! k).
Proof.
  revert i k. induction vars as [|val vars IH]; intros i k; simpl.
  - now destruct k.
  - destruct k as [|k]; simpl.
    + now rewrite Nat.add_0_r.
    + rewrite IH. now replace (S i + k) with (i + S k) by lia.
Qed.

Lemma replacer_lookup (vars : list value) (k : nat) (val : value) :
  vars !! k = Some val ->
  replacer vars !! k = Some (placeholder (S k), sqlValue val).
Proof.
  intros Hk. unfold replacer. rewrite replacerFrom_lookup, Hk. reflexivity.
Qed.

Lemma replacer_In (vars : list value) (old new : string) :
  In (old, new) (replacer vars) ->
  exists k val, vars !! k = Some val /\ old = placeholder (S k)
                /\ new = sqlValue val.
Proof.
  intros Hin. apply list_elem_of_In, list_elem_of_lookup in Hin as [k Hk].
  unfold replacer in Hk. rewrite replacerFrom_lookup in Hk.
  destruct (vars !! k) as [val|] eqn:Hv; [|discriminate].
  injection Hk as <- <-. exists k, val. auto.
Qed.

Lemma In_replacer (vars : list value) (k : nat) (val : value) :
  vars !! k = Some val -> In (placeholder (S k), sqlValue val) (replacer vars).
Proof.
  intros Hk. apply list_elem_of_In, list_elem_of_lookup.
  exists k. now apply replacer_lookup.
Qed.

(** [setStatement] splits at every [$] of the template. *)
Lemma setStatement_app_dollar (pre rest : string) (args : list value) :
  setStatement (pre +:+ String "$" rest) args
  = setStatement pre args +:+ setStatement (String "$" rest) args.
Proof. apply Replace_app_dollar, replacer_dollarKeys. Qed.

Lemma setStatement_other_byte (c : ascii) (s : string) (args : list value) :
  c <> "$"%char ->
  setStatement (String c s) args = String c (setStatement s args).
Proof. apply Replace_other_byte, replacer_dollarKeys. Qed.

(** The first pair is [$1]: it matches wherever the template reads [$1],
    whatever follows. *)
Lemma setStatement_dollar1 (rest : string) (val : value) (vars : list value) :
  setStatement ("$1" +:+ rest) (val :: vars)
  = sqlValue val +:+ setStatement rest (val :: vars).
Proof.
  unfold setStatement, strings.NewReplacer.
  apply (Replace_hit _ "$1"); [apply replacer_dollarKeys | reflexivity].
Qed.

(** With no key the scan copies its input. *)
Lemma Replace_nil (s : string) : strings.Replace [] s = s.
Proof.
  unfold strings.Replace. induction s as [|c s IH]; simpl; [reflexivity|].
  now rewrite IH.
Qed.

(** The kind that [reflect.ValueOf] reports is never [Interface]: the
    type switch of [setStatement] is not reached. *)
Lemma KindOf_not_Interface (val : value) : KindOf val <> Interface.
Proof. destruct val; discriminate. Qed.

Lemma sqlValue_reached (val : value) :
  sqlValue val
  = match val with VString s => quote s | _ => formatV val end.
Proof. destruct val; reflexivity. Qed.

(** On every value the loop body of [otgorm.go] computes the same text
    as that of [setStatement]. *)
Lemma sqlValueInline_sqlValue (val : value) : sqlValueInline val = sqlValue val.
Proof. destruct val; reflexivity. Qed.

End ReplacerFacts.

(** ** Statement reconstruction *)

Section Statement.
Context `{GoRuntime}.

(** A placeholder of one digit is matched by its own pair: the keys
    given before it are other single digits. *)
Lemma setStatement_digit (args : list value) (k : nat) (val : value)
      (rest : string) :
  k < 9 -> args !! k = Some val ->
  setStatement (placeholder (S k) +:+ rest) args
  = sqlValue val +:+ setStatement rest args.
Proof.
  intros Hk Hval. unfold setStatement, strings.NewReplacer.
  apply Replace_hit; [apply replacer_dollarKeys|].
  do 9 (destruct k as [|k];
        [ do 9 (try (destruct args as [|? args]; [discriminate|]));
          injection Hval as <-; reflexivity
        | destruct args as [|? args]; [discriminate|]; simpl in Hval ]).
  lia.
Qed.

(** What the loop computes for a nullable wrapper that is not valid: the
    wrapper printed as a struct. *)
Lemma sqlValue_not_valid (t : Time) (s : string) (n : Z) (b : bool) (f : Float64) :
  sqlValue (VSqlNullTime t false) = formatStruct2 (Time_String t) "false"
  /\ sqlValue (VSqlNullString s false) = formatStruct2 s "false"
  /\ sqlValue (VSqlNullInt64 n false) = formatStruct2 (formatInt n) "false"
  /\ sqlValue (VSqlNullInt32 n false) = formatStruct2 (formatInt n) "false"
  /\ sqlValue (VSqlNullBool b false) = formatStruct2 (formatBool b) "false"
  /\ sqlValue (VSqlNullFloat64 f false) = formatStruct2 (FormatFloat64 f) "false"
  /\ sqlValue (VPqNullTime t false) = formatStruct2 (Time_String t) "false".
Proof. repeat split. Qed.

(** C1 (the code at the failing input).  A [sql.NullInt64] that is not
    valid, bound to [$2], is not rendered as [NULL]: its kind is
    [Struct], the switch takes the default case and prints the wrapper
    with [%v]. *)
Theorem setStatement_not_valid_NullInt64 :
  setStatement "UPDATE t SET a = $1, b = $2" [VInt 5; VSqlNullInt64 0 false]
  = "UPDATE t SET a = 5, b = {0 false}".
Proof. reflexivity. Qed.

(** C2 (the code at the failing input).  A [time.Time] bound to [$1] is
    rendered as its canonical string with no quotes around it: its kind
    is [Struct], the switch takes the default case.  A valid
    [sql.NullTime] is printed as the struct it is. *)
Theorem setStatement_time_unquoted (t : Time) :
  setStatement "SELECT * FROM t WHERE created_at > $1" [VTime t]
  = "SELECT * FROM t WHERE created_at > " +:+ Time_String t
  /\ setStatement "SELECT * FROM t WHERE created_at > $1" [VSqlNullTime t true]
     = "SELECT * FROM t WHERE created_at > {" +:+ Time_String t +:+ " true}".
Proof.
  unfold setStatement, strings.NewReplacer, strings.Replace. simpl.
  rewrite !append_nil_r. unfold formatStruct2. simpl. split; reflexivity.
Qed.

(** C4.  The statement is the simultaneous substitution of the template:
    it is read off the template in one pass, each matched placeholder
    giving the text computed for its argument as it is, also when that
    text contains [$k]; what has been put in is not substituted again. *)
Theorem setStatement_simultaneous (SQL : string) (args : list value) :
  Substituted args SQL (setStatement SQL args).
Proof.
  remember (String.length SQL) as n eqn:Hn.
  revert SQL Hn. induction n as [n IH] using lt_wf_ind. intros SQL ->.
  pose proof (replacer_dollarKeys args) as Hr.
  destruct SQL as [|c s].
  - unfold setStatement, strings.NewReplacer, strings.Replace.
    cbn [strings.replaceFrom]. rewrite lookup_end by assumption. constructor.
  - destruct (strings.lookup (replacer args) (String c s) false)
      as [[new k]|] eqn:Hl.
    + destruct (lookup_Some _ _ _ _ _ Hl) as (old & Hin & Hp & ->).
      destruct (HasPrefix_split _ _ Hp) as [rest Hs].
      destruct (replacer_In _ _ _ Hin) as (i & val & Hval & -> & ->).
      pose proof (lookup_keylen _ _ _ _ _ Hr Hl) as [Hlen _].
      rewrite Hs in Hl |- *.
      unfold setStatement, strings.NewReplacer.
      rewrite (Replace_hit _ _ _ _ Hr Hl).
      apply Sub_placeholder; [assumption|].
      apply (IH (String.length rest)); [|reflexivity].
      rewrite Hs, length_append. lia.
    + unfold setStatement, strings.NewReplacer, strings.Replace.
      cbn [strings.replaceFrom]. rewrite Hl.
      apply Sub_copy.
      * intros i Hi. apply lookup_lt_is_Some in Hi as [val Hval].
        exact (lookup_None _ _ _ _ Hl (In_replacer _ _ _ Hval)).
      * apply (IH (String.length s)); [simpl; lia | reflexivity].
Qed.

(** C5.  A text argument is paired with its characters as they are
    between single quotes, and that is what its placeholder gives in the
    statement; an embedded quote is not escaped. *)
Theorem setStatement_text_verbatim (args : list value) (k : nat) (s : string) :
  args !! k = Some (VString s) ->
  replacer args !! k = Some (placeholder (S k), "'" +:+ s +:+ "'")
  /\ (k < 9 -> forall pre post,
        setStatement (pre +:+ placeholder (S k) +:+ post) args
        = setStatement pre args +:+ "'" +:+ s +:+ "'" +:+ setStatement post args)
  /\ setStatement "SELECT * FROM authors WHERE name = $1" [VString "O'Reilly"]
     = "SELECT * FROM authors WHERE name = 'O'Reilly'".
Proof.
  intros Hk. split; [|split].
  - now rewrite (replacer_lookup _ _ _ Hk).
  - intros Hlt pre post.
    change (placeholder (S k) +:+ post)
      with (String "$" (formatNat (S k) +:+ post)).
    rewrite setStatement_app_dollar.
    change (String "$" (formatNat (S k) +:+ post))
      with (placeholder (S k) +:+ post).
    rewrite (setStatement_digit _ _ _ _ Hlt Hk).
    change (sqlValue (VString s)) with ("'" +:+ s +:+ "'").
    now rewrite !append_assoc.
  - reflexivity.
Qed.

(** C6.  The template with [$1] and [$2] and the arguments [5] and
    ["ann"]: the integer is put in bare, the text between quotes, and
    the rest of the template is kept. *)
Theorem setStatement_example :
  setStatement "SELECT * FROM t WHERE id = $1 AND name = $2" [VInt 5; VString "ann"]
  = "SELECT * FROM t WHERE id = 5 AND name = 'ann'".
Proof. reflexivity. Qed.

(** C10.  With ten arguments or more the pairs are given in ascending
    order, [$1] first and [$10] tenth; the replacer compares in that
    order, so where the template reads [$10] it puts the text of
    argument 1 and copies the [0]. *)
Theorem setStatement_dollar10 (args : list value) (pre post : string) :
  10 <= length args ->
  exists a1 a10,
    args !! 0 = Some a1 /\ args !! 9 = Some a10
    /\ replacer args !! 0 = Some ("$1", sqlValue a1)
    /\ replacer args !! 9 = Some ("$10", sqlValue a10)
    /\ setStatement (pre +:+ "$10" +:+ post) args
       = setStatement pre args +:+ sqlValue a1 +:+ "0" +:+ setStatement post args.
Proof.
  intros Hlen.
  destruct (lookup_lt_is_Some_2 args 0 ltac:(lia)) as [a1 H1].
  destruct (lookup_lt_is_Some_2 args 9 ltac:(lia)) as [a10 H10].
  exists a1, a10. repeat split; try assumption.
  - exact (replacer_lookup _ _ _ H1).
  - exact (replacer_lookup _ _ _ H10).
  - destruct args as [|a args]; [discriminate|]. injection H1 as ->.
    change ("$10" +:+ post) with (String "$" ("10" +:+ post)).
    rewrite setStatement_app_dollar.
    change (String "$" ("10" +:+ post)) with ("$1" +:+ String "0" post).
    rewrite setStatement_dollar1, setStatement_other_byte by discriminate.
    reflexivity.
Qed.

End Statement.

(** ** The span lifecycle *)

Lemma splitFrom_head (cur s : string) :
  exists l, strings.splitFrom cur s " " = (cur +:+ beforeSpace s) :: l.
Proof.
  revert cur. induction s as [|c s IH]; intros cur;
    cbn [strings.splitFrom beforeSpace].
  - exists []. now rewrite append_nil_r.
  - destruct (Ascii.eqb c " ").
    + rewrite append_nil_r. eauto.
    + destruct (IH (cur +:+ String c "")) as [l ->].
      exists l. now rewrite append_assoc.
Qed.

Lemma count_app (p : call -> bool) (l1 l2 : list call) :
  count p (l1 ++ l2) = count p l1 + count p l2.
Proof. unfold count. now rewrite List.filter_app, List.length_app. Qed.

Lemma tagOf_app (sp : Span) (key : string) (l1 l2 : list call) (v : tagValue) :
  tagOf sp key l2 = Some v -> tagOf sp key (l1 ++ l2) = Some v.
Proof.
  intros Hv. induction l1 as [|c l1 IH]; simpl; [assumption|].
  now rewrite IH.
Qed.

Section Lifecycle.
Context `{GoRuntime}.

Lemma before_untraced (scope : Scope) (tr : Tracer) :
  scope_Get scope parentSpanGormKey = None ->
  before scope tr = Some (scope, tr).
Proof. intros Hp. unfold before. now rewrite Hp. Qed.

Lemma before_traced (scope : Scope) (parent : Span) (tr : Tracer) :
  scope_Get scope parentSpanGormKey = Some (SettingSpan parent) ->
  before scope tr
  = Some (scope_Set scope spanGormKey (SettingSpan (nextSpan tr)),
          logged tr (S (nextSpan tr)) (beforeCalls scope parent (nextSpan tr))).
Proof.
  intros Hp. unfold before. rewrite Hp.
  unfold bind, assertSpan, ret, StartSpan, SetTag, record, logged, beforeCalls.
  simpl. now rewrite <- !app_assoc.
Qed.

Lemma after_no_span (scope : Scope) (operation : string) (tr : Tracer) :
  scope_Get scope spanGormKey = None ->
  after scope operation tr = Some (scope, tr).
Proof. intros Hs. unfold after. now rewrite Hs. Qed.

(** [after] on a scope that holds a span: it does not panic, leaves the
    scope as it is, the stored span included, and makes the calls of
    [afterCalls]. *)
Lemma after_active (scope : Scope) (sp : Span) (operation : string) (tr : Tracer) :
  scope_Get scope spanGormKey = Some (SettingSpan sp) ->
  after scope operation tr
  = Some (scope, logged tr (nextSpan tr) (afterCalls scope sp operation)).
Proof.
  intros Hs. unfold after. rewrite Hs.
  unfold afterCalls, method, logged, strings.Split.
  destruct (splitFrom_head "" (SQL scope)) as [l ->].
  unfold bind, assertSpan, ret, SetTag, Finish, record, index0.
  destruct (String.eqb operation ""), (Error scope); simpl;
    now rewrite <- !app_assoc.
Qed.

Lemma count_afterCalls (scope : Scope) (sp : Span) (operation : string) :
  count isStartSpan (afterCalls scope sp operation) = 0
  /\ count isFinish (afterCalls scope sp operation) = 1
  /\ count (isFinishOf sp) (afterCalls scope sp operation) = 1.
Proof.
  unfold afterCalls, count.
  destruct (Error scope); simpl; rewrite Nat.eqb_refl; auto.
Qed.

End Lifecycle.

Section LifecycleClaims.
Context `{GoRuntime}.


(** C3, as amended.  [after] does not clear the span it finishes: run
    twice on a scope that holds a span, it finds the span both times and
    calls [Finish] on it once in each run, twice in all. *)
Theorem after_twice_finishes_twice (scope : Scope) (sp : Span)
        (operation : string) (tr : Tracer) :
  scope_Get scope spanGormKey = Some (SettingSpan sp) ->
  (s <- after scope operation ;; after s operation) tr
  = Some (scope, logged tr (nextSpan tr)
                   (afterCalls scope sp operation ++ afterCalls scope sp operation))
  /\ count (isFinishOf sp) (afterCalls scope sp operation) = 1
  /\ count (isFinishOf sp)
       (afterCalls scope sp operation ++ afterCalls scope sp operation) = 2.
Proof.
  intros Hs. pose proof (count_afterCalls scope sp operation) as (_ & _ & Hf).
  split; [|split].
  - unfold bind. rewrite (after_active _ _ _ _ Hs).
    rewrite (after_active _ _ _ _ Hs). unfold logged. simpl.
    now rewrite <- app_assoc.
  - exact Hf.
  - rewrite count_app, Hf. reflexivity.
Qed.

(** C7.  On a scope with no parent span (and so with no span stored),
    [before] and then [after] return the scope and the tracer as they
    were: no span is started, no tag set, nothing finished, no panic. *)
Theorem untraced_no_tracer_calls (scope : Scope) (operation : string)
        (tr : Tracer) :
  scope_Get scope parentSpanGormKey = None ->
  scope_Get scope spanGormKey = None ->
  before scope tr = Some (scope, tr)
  /\ (s <- before scope ;; after s operation) tr = Some (scope, tr).
Proof.
  intros Hp Hs. split.
  - now apply before_untraced.
  - unfold bind. rewrite (before_untraced _ _ Hp). now apply after_no_span.
Qed.

(** C8.  On a scope with a parent span, [before], the operation, then
    [after] make one [StartSpan] call and one [Finish] call, the last
    call of all, on the span that was started; this is so with or without
    an error, which only sets the tags [error] and [db.err]. *)
Theorem traced_one_start_one_finish (scope : Scope) (parent : Span)
        (operation sql : string) (vars : list value) (rows : Z)
        (err : option string) (tr : Tracer) :
  scope_Get scope parentSpanGormKey = Some (SettingSpan parent) ->
  exists (scope' : Scope) (tr' : Tracer) (trace : list call),
    (s <- before scope ;; after (executed s sql vars rows err) operation) tr
    = Some (scope', tr')
    /\ calls tr' = calls tr ++ trace
    /\ count isStartSpan trace = 1
    /\ count isFinish trace = 1
    /\ count (isFinishOf (nextSpan tr)) trace = 1
    /\ head trace = Some (CallStartSpan "sql" parent (nextSpan tr))
    /\ last trace = Some (CallFinish (nextSpan tr))
    /\ tagOf (nextSpan tr) "error" trace
       = Some (TagBool (match err with Some _ => true | None => false end))
    /\ tagOf (nextSpan tr) "db.err" trace = TagError <$> err.
Proof.
  intros Hp. unfold bind. rewrite (before_traced _ _ _ Hp).
  set (sp := nextSpan tr).
  set (scope1 := executed _ sql vars rows err).
  assert (scope_Get scope1 spanGormKey = Some (SettingSpan sp)) as Hs.
  { unfold scope1, scope_Get. simpl. apply lookup_insert_eq. }
  rewrite (after_active _ _ _ _ Hs).
  exists scope1, (logged (logged tr (S sp) (beforeCalls scope parent sp)) (S sp)
                    (afterCalls scope1 sp operation)),
    (beforeCalls scope parent sp ++ afterCalls scope1 sp operation).
  split; [reflexivity|]. split; [simpl; now rewrite <- app_assoc|].
  unfold beforeCalls, afterCalls, count, HasError. subst scope1. simpl.
  destruct err; simpl; rewrite ?Nat.eqb_refl; simpl; repeat split.
Qed.

(** What [after] computes with an empty operation, as for a raw row
    query: [strings.Split] on a single space gives, as its first piece, the
    part of the statement before its first space (all of it if it has
    none), and the tag is that piece in upper case.  For
    [select id from t] that is [SELECT]; for a statement that starts with
    a space the piece is empty. *)
Lemma method_of_empty_operation (scope : Scope) (sp : Span) (tr : Tracer) :
  scope_Get scope spanGormKey = Some (SettingSpan sp) ->
  exists tr',
    afterRowQuery scope tr = Some (scope, tr')
    /\ tagOf sp "db.method" (calls tr')
       = Some (TagString (strings.ToUpper (beforeSpace (SQL scope))))
    /\ strings.ToUpper (beforeSpace "select id from t") = "SELECT".
Proof.
  intros Hs. unfold afterRowQuery. rewrite (after_active _ _ _ _ Hs).
  eexists. split; [reflexivity|]. split; [|reflexivity].
  unfold logged. cbn [calls]. apply tagOf_app.
  unfold afterCalls, method.
  destruct (Error scope); simpl; rewrite ?Nat.eqb_refl; reflexivity.
Qed.

End LifecycleClaims.

(** ** The definitions evaluated *)

#[local] Existing Instance demoRuntime.


(** C3, counterexample.  [before] stores span 1 in the scope; [after] run
    twice on it calls [Finish] twice. *)
Lemma after_twice_counterexample :
  finishCalls (s0 <- before demoScope ;;
               s1 <- after s0 "SELECT" ;;
               after s1 "SELECT") demoTracer
  = Some 2.
Proof. vm_compute. reflexivity. Qed.

Lemma after_twice_finishes_twice_witness :
  scope_Get (rawScope "select 1") spanGormKey = Some (SettingSpan 1)
  /\ (s <- after (rawScope "select 1") "" ;; after s "") demoTracer
     = Some (rawScope "select 1",
             logged demoTracer 1
               (afterCalls (rawScope "select 1") 1 ""
                ++ afterCalls (rawScope "select 1") 1 ""))
  /\ count (isFinishOf 1) (afterCalls (rawScope "select 1") 1 "") = 1
  /\ count (isFinishOf 1)
       (afterCalls (rawScope "select 1") 1 ""
        ++ afterCalls (rawScope "select 1") 1 "") = 2.
Proof.
  split; [reflexivity|].
  apply (after_twice_finishes_twice (rawScope "select 1") 1 "" demoTracer).
  reflexivity.
Defined.

(** A value that reads [$2] is put in as it is; applying the pairs one
    after the other would substitute into it. *)
Lemma setStatement_not_sequential :
  setStatement "$1 and $2" [VString "$2"; VString "x"] = "'$2' and 'x'"
  /\ sequential "$1 and $2" [VString "$2"; VString "x"] = "''x'' and 'x'".
Proof. split; reflexivity. Qed.

Lemma setStatement_text_verbatim_witness :
  [VInt 5; VString "O'Reilly"] !! 1 = Some (VString "O'Reilly")
  /\ replacer [VInt 5; VString "O'Reilly"] !! 1
     = Some (placeholder 2, "'" +:+ "O'Reilly" +:+ "'")
  /\ setStatement ("name = " +:+ placeholder 2 +:+ " or id = $1")
       [VInt 5; VString "O'Reilly"]
     = setStatement "name = " [VInt 5; VString "O'Reilly"]
       +:+ "'" +:+ "O'Reilly" +:+ "'"
       +:+ setStatement " or id = $1" [VInt 5; VString "O'Reilly"]
  /\ setStatement "SELECT * FROM authors WHERE name = $1" [VString "O'Reilly"]
     = "SELECT * FROM authors WHERE name = 'O'Reilly'".
Proof.
  split; [reflexivity|].
  destruct (setStatement_text_verbatim [VInt 5; VString "O'Reilly"] 1 "O'Reilly")
    as (Hpair & Hstmt & Hex); [reflexivity|].
  split; [exact Hpair|]. split; [|exact Hex].
  apply Hstmt. lia.
Defined.

Lemma untraced_no_tracer_calls_witness :
  scope_Get untracedScope parentSpanGormKey = None
  /\ scope_Get untracedScope spanGormKey = None
  /\ before untracedScope demoTracer = Some (untracedScope, demoTracer)
  /\ (s <- before untracedScope ;; after s "SELECT") demoTracer
     = Some (untracedScope, demoTracer).
Proof.
  split; [reflexivity|]. split; [reflexivity|].
  apply (untraced_no_tracer_calls untracedScope "SELECT" demoTracer);
    reflexivity.
Defined.

Lemma traced_one_start_one_finish_witness :
  scope_Get demoScope parentSpanGormKey = Some (SettingSpan 0)
  /\ exists (scope' : Scope) (tr' : Tracer) (trace : list call),
      (s <- before demoScope ;;
       after (executed s "select id from t where id = $1" [VInt 5] 0
                (Some "boom")) "SELECT") demoTracer
      = Some (scope', tr')
      /\ calls tr' = calls demoTracer ++ trace
      /\ count isStartSpan trace = 1
      /\ count isFinish trace = 1
      /\ count (isFinishOf (nextSpan demoTracer)) trace = 1
      /\ head trace = Some (CallStartSpan "sql" 0 (nextSpan demoTracer))
      /\ last trace = Some (CallFinish (nextSpan demoTracer))
      /\ tagOf (nextSpan demoTracer) "error" trace = Some (TagBool true)
      /\ tagOf (nextSpan demoTracer) "db.err" trace = TagError <$> Some "boom".
Proof.
  split; [reflexivity|].
  apply (traced_one_start_one_finish demoScope 0 "SELECT"
           "select id from t where id = $1" [VInt 5] 0 (Some "boom") demoTracer).
  reflexivity.
Defined.

(** C9 (the code at the failing input).  For a raw row query the verb is
    derived from the statement, as the other callbacks have theirs, but by
    splitting on one space: the statement [ select id from t], which
    starts with a space, has the first whitespace-delimited token
    [select], and the span is tagged with the empty text before that
    space.  In [select], a line feed, [id from t] the token is [select],
    and the tag is [SELECT], the line feed, [ID]. *)
Theorem method_leading_space_evaluated :
  methodTag 1 (afterRowQuery (rawScope " select id from t")) demoTracer
  = Some (Some (TagString ""))
  /\ strings.ToUpper (firstToken " select id from t") = "SELECT"
  /\ methodTag 1 (afterRowQuery (rawScope ("select" +:+ String "010" "id from t")))
       demoTracer
     = Some (Some (TagString ("SELECT" +:+ String "010" "ID")))
  /\ strings.ToUpper (firstToken ("select" +:+ String "010" "id from t"))
     = "SELECT".
Proof. vm_compute. repeat split. Qed.


Lemma setStatement_dollar10_witness :
  10 <= length tenArgs
  /\ exists a1 a10,
      tenArgs !! 0 = Some a1 /\ tenArgs !! 9 = Some a10
      /\ replacer tenArgs !! 0 = Some ("$1", sqlValue a1)
      /\ replacer tenArgs !! 9 = Some ("$10", sqlValue a10)
      /\ setStatement ("x = " +:+ "$10" +:+ " or y = $2") tenArgs
         = setStatement "x = " tenArgs +:+ sqlValue a1 +:+ "0"
           +:+ setStatement " or y = $2" tenArgs.
Proof.
  split; [simpl; lia|].
  apply (setStatement_dollar10 tenArgs "x = " " or y = $2"). simpl. lia.
Defined.

(** The statement of the witness above, evaluated. *)
Lemma setStatement_dollar10_evaluated :
  setStatement "x = $10 or y = $2" tenArgs = "x = 'a'0 or y = 2".
Proof. reflexivity. Qed.

(** ** Decimal numerals *)

Lemma of_uint_acc_ge (d : Decimal.uint) (acc : nat) :
  acc <= Nat.of_uint_acc d acc.
Proof.
  revert acc. induction d as [|d IH|d IH|d IH|d IH|d IH|d IH|d IH|d IH|d IH|d IH];
    intros acc; simpl; [lia|..];
    (etransitivity; [|apply IH]); rewrite Nat.tail_mul_spec; lia.
Qed.

Lemma string_of_uint_empty (d : Decimal.uint) :
  NilEmpty.string_of_uint d = "" -> d = Decimal.Nil.
Proof. destruct d; simpl; [reflexivity | discriminate..]. Qed.

Lemma to_uint_normal (n : nat) : Decimal.unorm (Nat.to_uint n) = Nat.to_uint n.
Proof.
  rewrite <- (DecimalNat.Unsigned.to_of (Nat.to_uint n)).
  now rewrite DecimalNat.Unsigned.of_to.
Qed.

(** The numeral of a positive number starts with a digit from [1] to [9]
    that is at most the number; from ten on more digits follow. *)
Lemma formatNat_head (i : nat) :
  exists (c : ascii) (more : string) (j : nat),
    formatNat (S i) = String c more
    /\ digitOf c = Some j /\ j <= S i
    /\ formatNat j = String c ""
    /\ noDollar more = true
    /\ (9 <= i -> more <> "").
Proof.
  unfold formatNat.
  pose proof (DecimalNat.Unsigned.of_to (S i)) as Hof.
  pose proof (to_uint_normal (S i)) as Hnorm.
  destruct (Nat.to_uint (S i)) as [|u|u|u|u|u|u|u|u|u|u] eqn:Hu.
  3-11: unfold Nat.of_uint in Hof; simpl in Hof;
    match type of Hof with
    | Nat.of_uint_acc ?d ?a = _ => pose proof (of_uint_acc_ge d a) as Hge
    end;
    rewrite Nat.tail_mul_spec in *;
    eexists _, (NilEmpty.string_of_uint u), _;
    (split; [reflexivity|]); (split; [reflexivity|]);
    (split; [lia|]);
    (split; [reflexivity|]);
    (split; [apply noDollar_string_of_uint|]);
    intros Hi He; apply string_of_uint_empty in He as ->; simpl in Hof; lia.
  - discriminate.
  - exfalso. unfold Decimal.unorm in Hnorm. simpl in Hnorm.
    destruct (Decimal.nzhead u) eqn:Hz; try discriminate.
    + injection Hnorm as <-. discriminate.
    + exact (DecimalFacts.nzhead_nonzero _ _ Hz).
Qed.

Lemma digitOf_inv (d : ascii) (j : nat) :
  digitOf d = Some j -> 1 <= j <= 9 /\ formatNat j = String d "".
Proof.
  destruct d as [[] [] [] [] [] [] [] []]; intros Hd;
    try discriminate Hd; injection Hd as <-; (split; [lia | reflexivity]).
Qed.

Lemma lookup_None_intro (r : strings.Replacer) (s : string) (b : bool) :
  (forall old new, In (old, new) r -> strings.HasPrefix s old = false) ->
  strings.lookup r s b = None.
Proof.
  induction r as [|[old new] r IH]; intros Hall; [reflexivity|].
  cbn [strings.lookup]. rewrite (Hall old new) by (left; reflexivity).
  apply IH. intros old' new' Hin. apply (Hall old' new'). now right.
Qed.

(** ** Statement reconstruction, one [$] at a time *)

Section StatementSteps.
Context `{GoRuntime}.

Lemma setStatement_end (args : list value) : setStatement "" args = "".
Proof.
  unfold setStatement, strings.NewReplacer, strings.Replace.
  cbn [strings.replaceFrom]. now rewrite lookup_end by apply replacer_dollarKeys.
Qed.

Lemma setStatement_noDollar_prefix (m post : string) (args : list value) :
  noDollar m = true ->
  setStatement (m +:+ post) args = m +:+ setStatement post args.
Proof.
  induction m as [|c m IH]; intros Hm; [reflexivity|].
  cbn [noDollar] in Hm. apply andb_true_iff in Hm as [Hc Hm].
  apply negb_true_iff, Ascii.eqb_neq in Hc.
  cbn [String.append]. rewrite setStatement_other_byte by assumption.
  now rewrite IH.
Qed.

(** [$d] with [d] the digit of an argument that is there. *)
Lemma setStatement_hit_digit (args : list value) (d : ascii) (rest : string)
      (j : nat) (val : value) :
  digitOf d = Some j -> args !! (j - 1) = Some val ->
  setStatement (String "$" (String d rest)) args
  = sqlValue val +:+ setStatement rest args.
Proof.
  intros Hd Hval. destruct (digitOf_inv _ _ Hd) as [Hj Hfmt].
  rewrite <- (setStatement_digit args (j - 1) val rest) by (assumption || lia).
  unfold placeholder. replace (S (j - 1)) with j by lia. now rewrite Hfmt.
Qed.

(** A [$] that no key matches: what follows is not the leading digit of
    an argument that is there. *)
Lemma lookup_miss_dollar (args : list value) (s : string) :
  match s with
  | String d rest =>
      match digitOf d with
      | Some j => args !! (j - 1) = None
      | None => True
      end
  | EmptyString => True
  end ->
  strings.lookup (replacer args) (String "$" s) false = None.
Proof.
  intros Hs. apply lookup_None_intro. intros old new Hin.
  destruct (replacer_In _ _ _ Hin) as (k & val & Hval & -> & _).
  destruct (formatNat_head k) as (c & more & j & Hfmt & Hc & Hle & _).
  unfold placeholder. rewrite Hfmt.
  cbn [String.append strings.HasPrefix]. rewrite Ascii.eqb_refl.
  destruct s as [|d rest]; [reflexivity|].
  cbn [strings.HasPrefix andb].
  destruct (Ascii.eqb_spec d c) as [->|Hne]; [|reflexivity].
  rewrite Hc in Hs. exfalso.
  apply lookup_lt_Some in Hval.
  apply (lookup_ge_None_1 args (j - 1)) in Hs. lia.
Qed.

Lemma setStatement_miss_dollar (args : list value) (s : string) :
  strings.lookup (replacer args) (String "$" s) false = None ->
  setStatement (String "$" s) args = String "$" (setStatement s args).
Proof.
  intros Hl. unfold setStatement, strings.NewReplacer, strings.Replace.
  cbn [strings.replaceFrom]. now rewrite Hl.
Qed.

End StatementSteps.

Section StatementMore.
Context `{GoRuntime}.

(** X1.  With no arguments the statement is the template, whatever it
    holds. *)
Theorem setStatement_no_args (SQL : string) : setStatement SQL [] = SQL.
Proof. apply Replace_nil. Qed.

(** X2.  A template with no [$] is returned as it is, whatever the
    arguments: arguments without a placeholder are left out. *)
Theorem setStatement_no_dollar (SQL : string) (args : list value) :
  noDollar SQL = true -> setStatement SQL args = SQL.
Proof.
  intros Hs. rewrite <- (append_nil_r SQL) at 1.
  rewrite setStatement_noDollar_prefix by assumption.
  now rewrite setStatement_end, append_nil_r.
Qed.

(** The scan of the replacer and the substitution that reads one digit
    agree. *)
Lemma setStatement_oneDigit_eq (SQL : string) (args : list value) :
  setStatement SQL args = oneDigit args SQL.
Proof.
  remember (String.length SQL) as n eqn:Hn.
  revert SQL Hn. induction n as [n IH] using lt_wf_ind. intros SQL ->.
  destruct SQL as [|c s]; [apply setStatement_end|].
  cbn [oneDigit]. destruct (Ascii.eqb_spec c "$") as [->|Hc].
  - destruct s as [|d rest].
    + rewrite setStatement_miss_dollar by now apply lookup_miss_dollar.
      now rewrite setStatement_end.
    + destruct (digitOf d) as [j|] eqn:Hd;
        [destruct (args !! (j - 1)) as [val|] eqn:Hval|].
      * rewrite (setStatement_hit_digit _ _ _ _ _ Hd Hval).
        f_equal. apply (IH (String.length rest)); [simpl; lia | reflexivity].
      * rewrite setStatement_miss_dollar
          by (apply lookup_miss_dollar; now rewrite Hd).
        f_equal. apply (IH (String.length (String d rest))); [simpl; lia | reflexivity].
      * rewrite setStatement_miss_dollar
          by (apply lookup_miss_dollar; now rewrite Hd).
        f_equal. apply (IH (String.length (String d rest))); [simpl; lia | reflexivity].
  - rewrite setStatement_other_byte by assumption.
    f_equal. apply (IH (String.length s)); [simpl; lia | reflexivity].
Qed.

(** X3.  The statement is the template with every [$d], [d] a digit from
    [1] to [9] and at most the number of arguments, replaced by the text
    of argument [d], and every other byte copied: only one digit after a
    [$] is read. *)
Theorem setStatement_oneDigit (SQL : string) (args : list value) :
  setStatement SQL args = oneDigit args SQL.
Proof. apply setStatement_oneDigit_eq. Qed.

(** X4.  A placeholder [$1] to [$9] whose number is beyond the arguments
    stays in the statement as it is written. *)
Theorem setStatement_placeholder_out_of_range (args : list value) (k : nat)
        (pre post : string) :
  length args <= k -> k < 9 ->
  setStatement (pre +:+ placeholder (S k) +:+ post) args
  = setStatement pre args +:+ placeholder (S k) +:+ setStatement post args.
Proof.
  intros Hlen Hk.
  destruct (formatNat_head k) as (c & more & j & Hfmt & Hc & Hle & Hj & _).
  destruct (digitOf_inv _ _ Hc) as [Hj19 _].
  assert (more = "" /\ j = S k) as [-> ->].
  { do 9 (destruct k as [|k]; [injection Hfmt as <- <-; injection Hc as <-; auto|]).
    lia. }
  unfold placeholder. rewrite Hfmt. cbn [String.append].
  rewrite setStatement_app_dollar.
  rewrite setStatement_miss_dollar.
  - rewrite setStatement_other_byte; [reflexivity|].
    intros ->. discriminate Hc.
  - apply lookup_miss_dollar. rewrite Hc.
    apply lookup_ge_None_2. lia.
Qed.

(** X5.  A placeholder [$10] or beyond never gives its own argument: its
    first digit is taken as a placeholder of one digit, and the digits
    after it are copied. *)
Theorem setStatement_placeholder_many_digits (args : list value) (k : nat)
        (pre post : string) :
  9 <= k -> k < length args ->
  exists (j : nat) (val : value) (more : string),
    j < 9 /\ args !! j = Some val
    /\ placeholder (S k) = placeholder (S j) +:+ more /\ more <> ""
    /\ setStatement (pre +:+ placeholder (S k) +:+ post) args
       = setStatement pre args +:+ sqlValue val +:+ more
         +:+ setStatement post args.
Proof.
  intros Hk Hlen.
  destruct (formatNat_head k) as (c & more & j & Hfmt & Hc & Hle & Hj & Hm & Hne).
  destruct (digitOf_inv _ _ Hc) as [Hj19 _].
  destruct (lookup_lt_is_Some_2 args (j - 1) ltac:(lia)) as [val Hval].
  exists (j - 1), val, more.
  replace (S (j - 1)) with j by lia.
  split; [lia|]. split; [assumption|].
  split; [unfold placeholder; now rewrite Hfmt, Hj|].
  split; [auto|].
  unfold placeholder. rewrite Hfmt. cbn [String.append].
  rewrite setStatement_app_dollar.
  rewrite (setStatement_hit_digit _ _ _ _ _ Hc Hval).
  now rewrite setStatement_noDollar_prefix by assumption.
Qed.

End StatementMore.

(** ** More on the callbacks *)

Section LifecycleMore.
Context `{GoRuntime}.

(** X6.  [before] panics exactly when the setting under the parent span
    key holds something that is not a span. *)
Theorem before_panics_iff (scope : Scope) (tr : Tracer) :
  before scope tr = None
  <-> exists v, scope_Get scope parentSpanGormKey = Some (SettingOther v).
Proof.
  unfold before.
  destruct (scope_Get scope parentSpanGormKey) as [[p|v]|] eqn:Hp; simpl.
  - split; [discriminate | intros [v' [=]]].
  - split; [eauto | reflexivity].
  - split; [discriminate | intros [v' [=]]].
Qed.

(** X7.  [after] panics exactly when the setting under the span key holds
    something that is not a span; no statement makes it panic, the empty
    one included. *)
Theorem after_panics_iff (scope : Scope) (operation : string) (tr : Tracer) :
  after scope operation tr = None
  <-> exists v, scope_Get scope spanGormKey = Some (SettingOther v).
Proof.
  destruct (scope_Get scope spanGormKey) as [[sp|v]|] eqn:Hs.
  - rewrite (after_active _ _ _ _ Hs). split; [discriminate | intros [v' [=]]].
  - unfold after. rewrite Hs. simpl. split; [eauto | reflexivity].
  - rewrite (after_no_span _ _ _ Hs). split; [discriminate | intros [v' [=]]].
Qed.

(** X8.  On a scope with a parent span, [before] stores the span it
    started under the span key and changes nothing else: the parent span
    stays attached, the other settings and the fields of the scope are
    kept. *)
Theorem before_stores_span (scope : Scope) (parent : Span) (tr : Tracer) :
  scope_Get scope parentSpanGormKey = Some (SettingSpan parent) ->
  exists (scope' : Scope) (tr' : Tracer),
    before scope tr = Some (scope', tr')
    /\ scope_Get scope' spanGormKey = Some (SettingSpan (nextSpan tr))
    /\ scope_Get scope' parentSpanGormKey = Some (SettingSpan parent)
    /\ (forall name, name <> spanGormKey ->
                     scope_Get scope' name = scope_Get scope name)
    /\ SQL scope' = SQL scope /\ SQLVars scope' = SQLVars scope
    /\ Error scope' = Error scope /\ RowsAffected scope' = RowsAffected scope.
Proof.
  intros Hp. rewrite (before_traced _ _ _ Hp). eexists _, _.
  split; [reflexivity|]. unfold scope_Get, scope_Set in *. cbn [settings].
  split; [apply lookup_insert_eq|].
  split; [rewrite lookup_insert_ne; [assumption | discriminate]|].
  split; [intros name Hne; now rewrite lookup_insert_ne|].
  repeat split.
Qed.

(** X9.  On a scope that already holds a span, [before] starts another
    span, again as a child of the parent span, and stores it in place of
    the one held; [after] then finishes the new span and not the one that
    was held. *)
Theorem before_replaces_span (scope : Scope) (parent held : Span)
        (operation : string) (tr : Tracer) :
  scope_Get scope parentSpanGormKey = Some (SettingSpan parent) ->
  scope_Get scope spanGormKey = Some (SettingSpan held) ->
  held <> nextSpan tr ->
  exists (scope' : Scope) (tr' : Tracer) (trace : list call),
    (s <- before scope ;; after s operation) tr = Some (scope', tr')
    /\ scope_Get scope' spanGormKey = Some (SettingSpan (nextSpan tr))
    /\ calls tr' = calls tr ++ trace
    /\ head trace = Some (CallStartSpan "sql" parent (nextSpan tr))
    /\ count (isFinishOf (nextSpan tr)) trace = 1
    /\ count (isFinishOf held) trace = 0.
Proof.
  intros Hp Hs Hne. unfold bind. rewrite (before_traced _ _ _ Hp).
  set (sp := nextSpan tr) in *.
  set (scope1 := scope_Set scope spanGormKey (SettingSpan sp)).
  assert (scope_Get scope1 spanGormKey = Some (SettingSpan sp)) as Hs1.
  { unfold scope1, scope_Get, scope_Set. cbn [settings]. apply lookup_insert_eq. }
  rewrite (after_active _ _ _ _ Hs1).
  exists scope1, (logged (logged tr (S sp) (beforeCalls scope parent sp)) (S sp)
                    (afterCalls scope1 sp operation)),
    (beforeCalls scope parent sp ++ afterCalls scope1 sp operation).
  split; [reflexivity|]. split; [assumption|].
  split; [simpl; now rewrite <- app_assoc|].
  apply Nat.eqb_neq in Hne.
  unfold beforeCalls, afterCalls, count.
  destruct (Error scope1); simpl; rewrite ?Nat.eqb_refl, ?Hne; repeat split.
Qed.

(** X10.  The callbacks of create, query, update and delete tag the span
    with their own verb, whatever the statement is. *)
Theorem after_named_method (scope : Scope) (sp : Span) (tr : Tracer) :
  scope_Get scope spanGormKey = Some (SettingSpan sp) ->
  methodTag sp (afterCreate scope) tr = Some (Some (TagString "INSERT"))
  /\ methodTag sp (afterQuery scope) tr = Some (Some (TagString "SELECT"))
  /\ methodTag sp (afterUpdate scope) tr = Some (Some (TagString "UPDATE"))
  /\ methodTag sp (afterDelete scope) tr = Some (Some (TagString "DELETE")).
Proof.
  intros Hs. unfold methodTag, afterCreate, afterQuery, afterUpdate, afterDelete.
  rewrite !(after_active _ _ _ _ Hs). unfold logged. cbn [fmap option_fmap option_map snd calls].
  repeat split; f_equal; apply tagOf_app; unfold afterCalls, method;
    destruct (Error scope); simpl; rewrite ?Nat.eqb_refl; reflexivity.
Qed.

(** X14.  [after] as [otgorm.go] has it and [after] with [setStatement]
    make the same calls and return the same on every scope: the two
    loops compute the same text for every argument. *)
Theorem afterInline_after (scope : Scope) (operation : string) (tr : Tracer) :
  afterInline scope operation tr = after scope operation tr.
Proof.
  assert (forall vars i, replacerInlineFrom i vars = replacerFrom i vars) as Hr.
  { induction vars as [|val vars IH]; intros i; simpl; [reflexivity|].
    now rewrite sqlValueInline_sqlValue, IH. }
  unfold afterInline, after, setStatement, replacer. now rewrite Hr.
Qed.

End LifecycleMore.

(** ** Attaching the parent span, registering the callbacks *)

(** X11.  [SetSpanToGorm] changes the setting under the parent span key,
    to the span of the context, when the context carries a span; with a
    [nil] context or one without a span, and under every other name, the
    settings read as before. *)
Theorem SetSpanToGorm_lookup (ctx : option context_Context)
        (db : gmap string setting) (name : string) :
  SetSpanToGorm ctx db !! name
  = match ctx ≫= SpanFromContext with
    | Some parentSpan =>
        if decide (name = parentSpanGormKey)
        then Some (SettingSpan parentSpan)
        else db !! name
    | None => db !! name
    end.
Proof.
  unfold SetSpanToGorm, DB_Set.
  destruct ctx as [[[p|]]|]; simpl; try reflexivity.
  destruct (decide (name = parentSpanGormKey)) as [->|Hne].
  - apply lookup_insert_eq.
  - now apply lookup_insert_ne.
Qed.

(** X12.  Of two calls of [SetSpanToGorm] the later one decides when its
    context carries a span; when it does not, the handle is as the earlier
    call left it, parent span included. *)
Theorem SetSpanToGorm_twice (ctx1 ctx2 : option context_Context)
        (db : gmap string setting) :
  SetSpanToGorm ctx2 (SetSpanToGorm ctx1 db)
  = match ctx2 ≫= SpanFromContext with
    | Some _ => SetSpanToGorm ctx2 db
    | None => SetSpanToGorm ctx1 db
    end.
Proof.
  unfold SetSpanToGorm, DB_Set.
  destruct ctx2 as [[[p2|]]|]; simpl; try reflexivity.
  destruct ctx1 as [[[p1|]]|]; simpl; try reflexivity.
  apply insert_insert_eq.
Qed.

Section AttachAndRegister.
Context `{GoRuntime}.

(** X13.  A scope made from a handle that [SetSpanToGorm] was given a
    context with a span for is traced: [before] starts one span, a child
    of the span of the context, and [after] finishes it. *)
Theorem SetSpanToGorm_traced (ctx : context_Context) (parentSpan : Span)
        (db : gmap string setting) (scope : Scope) (operation : string)
        (tr : Tracer) :
  SpanFromContext ctx = Some parentSpan ->
  settings scope = SetSpanToGorm (Some ctx) db ->
  exists (scope' : Scope) (tr' : Tracer) (trace : list call),
    (s <- before scope ;; after s operation) tr = Some (scope', tr')
    /\ calls tr' = calls tr ++ trace
    /\ head trace = Some (CallStartSpan "sql" parentSpan (nextSpan tr))
    /\ count isStartSpan trace = 1
    /\ count isFinish trace = 1
    /\ last trace = Some (CallFinish (nextSpan tr)).
Proof.
  intros Hctx Hset.
  assert (scope_Get scope parentSpanGormKey = Some (SettingSpan parentSpan)) as Hp.
  { unfold scope_Get. rewrite Hset, SetSpanToGorm_lookup.
    cbn [mbind option_bind]. rewrite Hctx.
    now destruct (decide (parentSpanGormKey = parentSpanGormKey)). }
  unfold bind. rewrite (before_traced _ _ _ Hp).
  set (sp := nextSpan tr).
  set (scope1 := scope_Set scope spanGormKey (SettingSpan sp)).
  assert (scope_Get scope1 spanGormKey = Some (SettingSpan sp)) as Hs1.
  { unfold scope1, scope_Get, scope_Set. cbn [settings]. apply lookup_insert_eq. }
  rewrite (after_active _ _ _ _ Hs1).
  exists scope1, (logged (logged tr (S sp) (beforeCalls scope parentSpan sp)) (S sp)
                    (afterCalls scope1 sp operation)),
    (beforeCalls scope parentSpan sp ++ afterCalls scope1 sp operation).
  split; [reflexivity|]. split; [simpl; now rewrite <- app_assoc|].
  unfold beforeCalls, afterCalls, count.
  destruct (Error scope1); simpl; repeat split.
Qed.

(** X15.  A scope made from a handle with no tracing setting, to which
    [SetSpanToGorm] was given a [nil] context or a context without a span,
    is not traced: [before] and [after] make no call to the tracer. *)
Theorem SetSpanToGorm_untraced (ctx : option context_Context)
        (db : gmap string setting) (scope : Scope) (operation : string)
        (tr : Tracer) :
  ctx ≫= SpanFromContext = None ->
  db !! parentSpanGormKey = None ->
  db !! spanGormKey = None ->
  settings scope = SetSpanToGorm ctx db ->
  (s <- before scope ;; after s operation) tr = Some (scope, tr).
Proof.
  intros Hctx Hp Hs Hset.
  assert (forall name, scope_Get scope name = db !! name) as Hget.
  { intros name. unfold scope_Get. now rewrite Hset, SetSpanToGorm_lookup, Hctx. }
  unfold bind. rewrite before_untraced by now rewrite Hget.
  apply after_no_span. now rewrite Hget.
Qed.

(** [registerCallbacks] with a name that is none of the five kinds
    registers nothing. *)
Lemma registerCallbacks_unknown (cbs : list CallbackProcessor) (name : string) :
  ~ In name ["create"; "query"; "update"; "delete"; "row_query"] ->
  registerCallbacks cbs name = cbs.
Proof.
  intros Hn. unfold registerCallbacks.
  destruct (String.eqb_spec name "create") as [->|_];
    [exfalso; apply Hn; simpl; tauto|].
  destruct (String.eqb_spec name "query") as [->|_];
    [exfalso; apply Hn; simpl; tauto|].
  destruct (String.eqb_spec name "update") as [->|_];
    [exfalso; apply Hn; simpl; tauto|].
  destruct (String.eqb_spec name "delete") as [->|_];
    [exfalso; apply Hn; simpl; tauto|].
  destruct (String.eqb_spec name "row_query") as [->|_];
    [exfalso; apply Hn; simpl; tauto|].
  reflexivity.
Qed.

(** X16.  [AddGormCallbacks] adds ten callbacks after those registered
    already: for each of the five kinds one that runs [before] ahead of
    gorm's callback of that kind and one that runs [after] behind it, with
    the verb of the kind (none for a raw row query). *)
Theorem AddGormCallbacks_registered (cbs : list CallbackProcessor) (kind : string) :
  In kind ["create"; "query"; "update"; "delete"; "row_query"] ->
  AddGormCallbacks cbs = cbs ++ AddGormCallbacks []
  /\ length (AddGormCallbacks []) = 10
  /\ List.filter (fun cp => String.eqb (cp_kind cp) kind) (AddGormCallbacks [])
     = [ {| cp_name := "tracing:" +:+ kind +:+ "_before";
            cp_before := "gorm:" +:+ kind; cp_after := "";
            cp_kind := kind; cp_processor := before |};
         {| cp_name := "tracing:" +:+ kind +:+ "_after";
            cp_before := ""; cp_after := "gorm:" +:+ kind;
            cp_kind := kind;
            cp_processor := fun scope => after scope (verbOf kind) |} ].
Proof.
  intros Hk. split; [|split].
  - unfold AddGormCallbacks, registerCallbacks, RegisterAfter, RegisterBefore.
    simpl. now rewrite <- !app_assoc.
  - reflexivity.
  - simpl in Hk.
    destruct Hk as [<-|[<-|[<-|[<-|[<-|[]]]]]]; reflexivity.
Qed.

End AttachAndRegister.

Section StatementNine.
Context `{GoRuntime}.

Lemma oneDigit_take (args : list value) (s : string) :
  oneDigit (take 9 args) s = oneDigit args s.
Proof.
  remember (String.length s) as n eqn:Hn.
  revert s Hn. induction n as [n IH] using lt_wf_ind. intros s ->.
  destruct s as [|c s]; [reflexivity|].
  cbn [oneDigit].
  rewrite (IH (String.length s)) by (simpl; lia || reflexivity).
  destruct (Ascii.eqb c "$"); [|reflexivity].
  destruct s as [|d rest]; [reflexivity|].
  destruct (digitOf d) as [j|] eqn:Hd; [|reflexivity].
  destruct (digitOf_inv _ _ Hd) as [Hj _].
  rewrite lookup_take_lt by lia.
  rewrite (IH (String.length rest)) by (simpl; lia || reflexivity).
  reflexivity.
Qed.

(** X17.  Only the first nine arguments can appear in the statement: it
    is the same with the arguments after the ninth taken away. *)
Theorem setStatement_first_nine (SQL : string) (args : list value) :
  setStatement SQL args = setStatement SQL (take 9 args).
Proof. now rewrite !setStatement_oneDigit_eq, oneDigit_take. Qed.

End StatementNine.

(** ** The further properties evaluated *)

Lemma setStatement_no_dollar_witness :
  noDollar "select 1" = true
  /\ setStatement "select 1" [VInt 5; VString "ann"] = "select 1".
Proof.
  split; [reflexivity|].
  apply (setStatement_no_dollar "select 1" [VInt 5; VString "ann"]).
  reflexivity.
Defined.

Lemma setStatement_placeholder_out_of_range_witness :
  length [VInt 5] <= 1 /\ 1 < 9
  /\ setStatement ("id = $1 and name = " +:+ placeholder 2 +:+ " limit 1") [VInt 5]
     = setStatement "id = $1 and name = " [VInt 5] +:+ placeholder 2
       +:+ setStatement " limit 1" [VInt 5].
Proof.
  split; [simpl; lia|]. split; [lia|].
  apply (setStatement_placeholder_out_of_range [VInt 5] 1
           "id = $1 and name = " " limit 1"); simpl; lia.
Defined.

Lemma setStatement_placeholder_many_digits_witness :
  9 <= 9 /\ 9 < length tenArgs
  /\ exists (j : nat) (val : value) (more : string),
      j < 9 /\ tenArgs !! j = Some val
      /\ placeholder 10 = placeholder (S j) +:+ more /\ more <> ""
      /\ setStatement ("x = " +:+ placeholder 10 +:+ " or y = $2") tenArgs
         = setStatement "x = " tenArgs +:+ sqlValue val +:+ more
           +:+ setStatement " or y = $2" tenArgs.
Proof.
  split; [lia|]. split; [simpl; lia|].
  apply (setStatement_placeholder_many_digits tenArgs 9 "x = " " or y = $2");
    simpl; lia.
Defined.

Lemma before_stores_span_witness :
  scope_Get demoScope parentSpanGormKey = Some (SettingSpan 0)
  /\ exists (scope' : Scope) (tr' : Tracer),
      before demoScope demoTracer = Some (scope', tr')
      /\ scope_Get scope' spanGormKey = Some (SettingSpan (nextSpan demoTracer))
      /\ scope_Get scope' parentSpanGormKey = Some (SettingSpan 0)
      /\ (forall name, name <> spanGormKey ->
                       scope_Get scope' name = scope_Get demoScope name)
      /\ SQL scope' = SQL demoScope /\ SQLVars scope' = SQLVars demoScope
      /\ Error scope' = Error demoScope
      /\ RowsAffected scope' = RowsAffected demoScope.
Proof.
  split; [reflexivity|].
  apply (before_stores_span demoScope 0 demoTracer). reflexivity.
Defined.

Lemma before_replaces_span_witness :
  scope_Get (scope_Set demoScope spanGormKey (SettingSpan 0)) parentSpanGormKey
  = Some (SettingSpan 0)
  /\ scope_Get (scope_Set demoScope spanGormKey (SettingSpan 0)) spanGormKey
     = Some (SettingSpan 0)
  /\ 0 <> nextSpan demoTracer
  /\ exists (scope' : Scope) (tr' : Tracer) (trace : list call),
      (s <- before (scope_Set demoScope spanGormKey (SettingSpan 0)) ;;
       after s "SELECT") demoTracer = Some (scope', tr')
      /\ scope_Get scope' spanGormKey = Some (SettingSpan (nextSpan demoTracer))
      /\ calls tr' = calls demoTracer ++ trace
      /\ head trace = Some (CallStartSpan "sql" 0 (nextSpan demoTracer))
      /\ count (isFinishOf (nextSpan demoTracer)) trace = 1
      /\ count (isFinishOf 0) trace = 0.
Proof.
  split; [reflexivity|]. split; [reflexivity|]. split; [simpl; lia|].
  apply (before_replaces_span (scope_Set demoScope spanGormKey (SettingSpan 0))
           0 0 "SELECT" demoTracer); [reflexivity | reflexivity | simpl; lia].
Defined.

Lemma after_named_method_witness :
  scope_Get (rawScope "select 1") spanGormKey = Some (SettingSpan 1)
  /\ methodTag 1 (afterCreate (rawScope "select 1")) demoTracer
     = Some (Some (TagString "INSERT"))
  /\ methodTag 1 (afterQuery (rawScope "select 1")) demoTracer
     = Some (Some (TagString "SELECT"))
  /\ methodTag 1 (afterUpdate (rawScope "select 1")) demoTracer
     = Some (Some (TagString "UPDATE"))
  /\ methodTag 1 (afterDelete (rawScope "select 1")) demoTracer
     = Some (Some (TagString "DELETE")).
Proof.
  split; [reflexivity|].
  apply (after_named_method (rawScope "select 1") 1 demoTracer). reflexivity.
Defined.

Lemma SetSpanToGorm_traced_witness :
  SpanFromContext {| SpanFromContext := Some 0 |} = Some 0
  /\ settings demoScope
     = SetSpanToGorm (Some {| SpanFromContext := Some 0 |}) ∅
  /\ exists (scope' : Scope) (tr' : Tracer) (trace : list call),
      (s <- before demoScope ;; after s "SELECT") demoTracer = Some (scope', tr')
      /\ calls tr' = calls demoTracer ++ trace
      /\ head trace = Some (CallStartSpan "sql" 0 (nextSpan demoTracer))
      /\ count isStartSpan trace = 1
      /\ count isFinish trace = 1
      /\ last trace = Some (CallFinish (nextSpan demoTracer)).
Proof.
  split; [reflexivity|]. split; [reflexivity|].
  apply (SetSpanToGorm_traced {| SpanFromContext := Some 0 |} 0 ∅ demoScope
           "SELECT" demoTracer); reflexivity.
Defined.

Lemma SetSpanToGorm_untraced_witness :
  Some {| SpanFromContext := None |} ≫= SpanFromContext = None
  /\ (∅ : gmap string setting) !! parentSpanGormKey = None
  /\ (∅ : gmap string setting) !! spanGormKey = None
  /\ settings untracedScope
     = SetSpanToGorm (Some {| SpanFromContext := None |}) ∅
  /\ (s <- before untracedScope ;; after s "SELECT") demoTracer
     = Some (untracedScope, demoTracer).
Proof.
  split; [reflexivity|]. split; [reflexivity|]. split; [reflexivity|].
  split; [reflexivity|].
  apply (SetSpanToGorm_untraced (Some {| SpanFromContext := None |}) ∅
           untracedScope "SELECT" demoTracer); reflexivity.
Defined.

Lemma AddGormCallbacks_registered_witness :
  In "update" ["create"; "query"; "update"; "delete"; "row_query"]
  /\ AddGormCallbacks [] = [] ++ AddGormCallbacks []
  /\ length (AddGormCallbacks []) = 10
  /\ List.filter (fun cp => String.eqb (cp_kind cp) "update") (AddGormCallbacks [])
     = [ {| cp_name := "tracing:" +:+ "update" +:+ "_before";
            cp_before := "gorm:" +:+ "update"; cp_after := "";
            cp_kind := "update"; cp_processor := before |};
         {| cp_name := "tracing:" +:+ "update" +:+ "_after";
            cp_before := ""; cp_after := "gorm:" +:+ "update";
            cp_kind := "update";
            cp_processor := fun scope => after scope (verbOf "update") |} ].
Proof.
  split; [simpl; tauto|].
  apply (AddGormCallbacks_registered [] "update"). simpl. tauto.
Defined.
